(** * eos/render/utils.hpp: window transform and mipmapped textures

    A shallow embedding of [include/eos/render/utils.hpp]:

    - [clip_to_screen_space] and [screen_to_clip_space], the window transform
      and its inverse;
    - [get_max_possible_mipmaps_num] and [is_power_of_two];
    - [Texture::create_mipmapped_texture], as a function on the state of the
      [Texture] object, with the three OpenCV calls it makes ([Mat::convertTo],
      [cv::cvtColor], [cv::resize]) as parameters.

    Conventions.  C++ [int] and [unsigned int] values are integers of [Z];
    the wrap-around of [unsigned int] is written out with [to_uint].
    Exceptions are explicit results, and the one loop that may run for ever
    takes fuel.

    Floating point.  The two coordinate functions compute in [float].  They
    are modelled twice: exactly, over the rationals [Q], where the theorems
    are stated, and in IEEE 754 binary32 (module [Binary32]), where they are
    run on examples.  The two logarithm fields are computed in [double];
    they are modelled in exact real arithmetic, as the integer part of
    [log2 n + 1/10000]. *)

From Stdlib Require Import ZArith String List Bool Lia.
From Stdlib Require Import QArith Qfield.
From Stdlib Require Lqa.
From Stdlib Require Import Reals Lra Zfloor.
From Stdlib Require Import SpecFloat.
Import ListNotations.

Local Open Scope list_scope.
Local Open Scope Z_scope.

(* ================================================================== *)
(** * Coordinate mapper *)

(** [cv::Vec2f]: two coordinates, read with [operator[]] at 0 and 1. *)
Record Vec2f : Type := mkVec2f { v0 : Q; v1 : Q }.

(** Component-wise equality of the rational coordinates. *)
Definition Vec2f_eq (a b : Vec2f) : Prop :=
  (v0 a == v0 b)%Q /\ (v1 a == v1 b)%Q.

Infix "=v=" := Vec2f_eq (at level 70, no associativity).

(** The conversion of an [int] argument to [float], taken as exact: in
    the rational model no value is rounded.  [Binary32.of_int] below is
    the conversion that rounds. *)
Definition to_float (z : Z) : Q := inject_Z z.

(** [clip_to_screen_space] (utils.hpp, lines 48-61), in exact arithmetic. *)
Definition clip_to_screen_space
    (clip_coordinates : Vec2f) (screen_width screen_height : Z) : Vec2f :=
  let x_ss := ((v0 clip_coordinates + 1) * (to_float screen_width / 2))%Q in
  let y_ss := (to_float screen_height
               - (v1 clip_coordinates + 1) * (to_float screen_height / 2))%Q in
  mkVec2f x_ss y_ss.

(** [screen_to_clip_space] (utils.hpp, lines 74-80), in exact arithmetic. *)
Definition screen_to_clip_space
    (screen_coordinates : Vec2f) (screen_width screen_height : Z) : Vec2f :=
  let x_cs := (v0 screen_coordinates / (to_float screen_width / 2) - 1)%Q in
  let y_cs := (v1 screen_coordinates / (to_float screen_height / 2) - 1)%Q in
  let y_cs := (y_cs * (-1))%Q in
  mkVec2f x_cs y_cs.

(* ================================================================== *)
(** * Coordinate mapper in binary32 *)

Module Binary32.

(** A [float]: IEEE 754 binary32, 24 bits of precision, round to nearest
    even. *)
Definition float : Type := spec_float.

Definition prec : Z := 24.
Definition emax : Z := 128.

Definition fadd : float -> float -> float := SFadd prec emax.
Definition fsub : float -> float -> float := SFsub prec emax.
Definition fmul : float -> float -> float := SFmul prec emax.
Definition fdiv : float -> float -> float := SFdiv prec emax.

(** The conversion of an [int] to [float]; it rounds above 2^24. *)
Definition of_int (z : Z) : float := binary_normalize prec emax z 0 false.

(** The rational value of a finite [float]. *)
Definition value (x : float) : option Q :=
  match x with
  | S754_zero _ => Some 0%Q
  | S754_finite s m e =>
      let mag := if e <? 0 then (inject_Z (Zpos m) / inject_Z (2 ^ (- e)))%Q
                 else inject_Z (Zpos m * 2 ^ e) in
      Some (if s then (- mag)%Q else mag)
  | _ => None
  end.

(** [clip_to_screen_space] (lines 48-61) with its [float] operations. *)
Definition clip_to_screen_space
    (clip_coordinates : float * float) (screen_width screen_height : Z)
  : float * float :=
  let x_ss := fmul (fadd (fst clip_coordinates) (of_int 1))
                   (fdiv (of_int screen_width) (of_int 2)) in
  let y_ss := fsub (of_int screen_height)
                   (fmul (fadd (snd clip_coordinates) (of_int 1))
                         (fdiv (of_int screen_height) (of_int 2))) in
  (x_ss, y_ss).

(** [screen_to_clip_space] (lines 74-80) with its [float] operations. *)
Definition screen_to_clip_space
    (screen_coordinates : float * float) (screen_width screen_height : Z)
  : float * float :=
  let x_cs := fsub (fdiv (fst screen_coordinates)
                         (fdiv (of_int screen_width) (of_int 2)))
                   (of_int 1) in
  let y_cs := fsub (fdiv (snd screen_coordinates)
                         (fdiv (of_int screen_height) (of_int 2)))
                   (of_int 1) in
  let y_cs := fmul y_cs (of_int (-1)) in
  (x_cs, y_cs).

(** The [float] nearest to 1/10 and the one nearest to -7/9. *)
Definition tenth : float := fdiv (of_int 1) (of_int 10).
Definition minus_seven_ninths : float := fdiv (of_int (-7)) (of_int 9).







End Binary32.

(* ================================================================== *)
(** * Integer helpers *)

(** Conversion to [unsigned int] (32 bits): reduction modulo 2^32. *)
Definition UINT_MOD : Z := 2 ^ 32.
Definition INT_MAX : Z := 2 ^ 31 - 1.
Definition INT_MIN : Z := - 2 ^ 31.
Definition to_uint (z : Z) : Z := z mod UINT_MOD.

(** The do-while loop of [get_max_possible_mipmaps_num] (lines 91-94): one
    unit of fuel per iteration, [None] when the fuel runs out before [size]
    reaches 1. *)
Fixpoint mipmaps_num_loop (fuel : nat) (size mipmapsNum : Z) : option Z :=
  match fuel with
  | O => None
  | S fuel' =>
      let size := Z.shiftr size 1 in
      let mipmapsNum := to_uint (mipmapsNum + 1) in
      if size =? 1 then Some mipmapsNum
      else mipmaps_num_loop fuel' size mipmapsNum
  end.

(** [get_max_possible_mipmaps_num] (lines 83-97); [width] and [height] are
    [unsigned int]. *)
Definition get_max_possible_mipmaps_num (fuel : nat) (width height : Z)
  : option Z :=
  let mipmapsNum := 1 in
  let size := Z.max width height in
  if size =? 1 then Some 1
  else mipmaps_num_loop fuel size mipmapsNum.

(** The conversion of an [int] to [bool]: non-zero is [true]. *)
Definition int_to_bool (v : Z) : bool := negb (v =? 0).

(** [is_power_of_two] (lines 99-102): [!(x & (x - 1))].  [Z.land] is the
    bitwise and of two's complement integers, as [&] on [int]; the method
    calls it on [image.cols] and [image.rows], which are not negative, so
    that [x - 1] does not overflow.  The definition is that of the code for
    every [int] above [INT_MIN]; at [INT_MIN] the subtraction overflows. *)
Definition is_power_of_two (x : Z) : bool :=
  negb (int_to_bool (Z.land x (x - 1))).

(* ================================================================== *)
(** * OpenCV data: matrices, sizes, exceptions *)

(** The depth of a matrix element ([CV_8U], ...). *)
Inductive Depth : Type :=
  CV_8U | CV_8S | CV_16U | CV_16S | CV_32S | CV_32F | CV_64F.

(** A matrix type, [CV_MAKETYPE(depth, channels)]. *)
Record MatType : Type := mkType { depth : Depth; channels : Z }.

Definition CV_8UC3 : MatType := mkType CV_8U 3.
Definition CV_8UC4 : MatType := mkType CV_8U 4.

(** [cv::Size]. *)
Record Size : Type := mkSize { width : Z; height : Z }.

(** [cv::Mat]: the header fields the code reads, and the elements, row by
    row with the channels of a pixel next to each other. *)
Record Mat : Type := mkMat {
  rows : Z;
  cols : Z;
  type : MatType;
  data : list Z
}.

(** [Mat::size()]. *)
Definition Mat_size (m : Mat) : Size := mkSize (cols m) (rows m).

(** [cv::Mat m(rows, cols, type)]: a fresh matrix, its elements not yet
    written (zeros here). *)
Definition Mat_new (rows cols : Z) (type : MatType) : Mat :=
  mkMat rows cols type
        (repeat 0 (Z.to_nat (rows * cols * channels type))).

(** Two of the colour conversion codes of [cv::cvtColor]; the method uses
    [CV_BGR2BGRA]. *)
Inductive ColorConversionCode : Type :=
  CV_BGR2BGRA | CV_BGRA2BGR.

(** The exceptions that leave [create_mipmapped_texture] (line 109,
    "throws: ocv exc, runtime_ex"): [std::runtime_error] with its message
    and [cv::Exception] with its error code. *)
Inductive exn : Type :=
| runtime_error (what : string)
| cv_Exception (code : Z).

(** The result of an OpenCV call: the matrix written, or the error code of
    the [cv::Exception] it throws. *)
Inductive result (A : Type) : Type :=
| Ok (a : A)
| Raise (code : Z).
Arguments Ok {A} a.
Arguments Raise {A} code.

(** How a call of a [void] method ends: it returns, it throws, or the C++
    standard gives it no meaning (an index outside a vector, a signed
    overflow, the conversion of a non-finite [double] to an integer). *)
Inductive completion : Type :=
| Normal
| Thrown (e : exn)
| Undefined.

(* ================================================================== *)
(** * Texture *)

(** The data members of [class Texture] (lines 154-159). *)
Record Texture : Type := mkTexture {
  mipmaps : list Mat;
  widthLog : Z;
  heightLog : Z;
  mipmaps_num : Z
}.

Definition set_mipmaps_num (this : Texture) (n : Z) : Texture :=
  mkTexture (mipmaps this) (widthLog this) (heightLog this) n.
Definition set_mipmaps (this : Texture) (ms : list Mat) : Texture :=
  mkTexture ms (widthLog this) (heightLog this) (mipmaps_num this).
Definition set_widthLog (this : Texture) (l : Z) : Texture :=
  mkTexture (mipmaps this) l (heightLog this) (mipmaps_num this).
Definition set_heightLog (this : Texture) (l : Z) : Texture :=
  mkTexture (mipmaps this) (widthLog this) l (mipmaps_num this).

(** [(uchar)(std::log(n) / CV_LOG2 + 0.0001f)] (lines 150-151), in exact
    arithmetic: the integer part of [log2 n + 1/10000].  It is computed with
    integers only, as [floor (log2 (2 * n^10000) / 10000)]; the lemma
    [log2_eps_floor] relates it to the real logarithm.  For [n <= 0] the
    logarithm is not finite and the cast has no meaning: [None].  For an
    [int] [n >= 1] the value is at most 31, inside [unsigned char]. *)
Definition log2_eps (n : Z) : option Z :=
  if n <? 1 then None
  else Some (Z.log2 (2 * n ^ 10000) / 10000).

(** The step of [currWidth] and [currHeight] at the end of an iteration
    (lines 145-148): [if (c > 1) c >>= 1;]. *)
Definition halve (c : Z) : Z :=
  if c >? 1 then Z.shiftr c 1 else c.

(** [currWidth] (or [currHeight]) at the start of iteration [j] of the
    loop, from its value [c] at iteration 0: [j] steps of [halve]. *)
Fixpoint halve_iter (c : Z) (j : nat) : Z :=
  match j with
  | O => c
  | S j' => halve_iter (halve c) j'
  end.

Definition not_power_of_two_msg : string :=
  "Error: Couldn't generate mipmaps, width or height not power of two.".

(** Lines 140-141, the call that builds a level: [resize] on [src] with a
    fresh [currHeight] x [currWidth] matrix of type 8UC4 as output and its
    size as [dsize]. *)
Definition resize_to (resize : Mat -> Mat -> Size -> result Mat)
    (src : Mat) (currWidth currHeight : Z) : result Mat :=
  let currMipMap := Mat_new currHeight currWidth CV_8UC4 in
  resize src currMipMap (Mat_size currMipMap).

Section CreateMipmappedTexture.

(** The OpenCV operations the method calls; each returns the matrix it
    writes, or throws.
    - [convertTo src rtype]: [src.convertTo(dst, rtype)];
    - [cvtColor src code]: [cv::cvtColor(src, dst, code)];
    - [resize src dst dsize]: [cv::resize(src, dst, dsize)], [dst] being
      the matrix handed in as the output argument. *)
Variable convertTo : Mat -> MatType -> result Mat.
Variable cvtColor : Mat -> ColorConversionCode -> result Mat.
Variable resize : Mat -> Mat -> Size -> result Mat.

(** One execution of the body of the [for] loop up to the [push_back]
    (lines 136-143): the vector after it, or how the body ended. *)
Definition push_level (i : Z) (image : Mat) (currWidth currHeight : Z)
    (mipmaps : list Mat) : list Mat + completion :=
  if i =? 0 then inl (mipmaps ++ [image])
  else
    let currMipMap := Mat_new currHeight currWidth CV_8UC4 in
    match nth_error mipmaps (Z.to_nat (i - 1)) with
    | None => inr Undefined
    | Some prev =>
        match resize prev currMipMap (Mat_size currMipMap) with
        | Raise code => inr (Thrown (cv_Exception code))
        | Ok currMipMap => inl (mipmaps ++ [currMipMap])
        end
    end.

(** The [for] loop (lines 134-149), with [n] iterations left to run at
    index [i]: [i + n] is [mipmaps_num].  [i++] overflows at [INT_MAX]. *)
Fixpoint build_levels (n : nat) (i : Z) (image : Mat)
    (currWidth currHeight : Z) (mipmaps : list Mat)
  : list Mat * completion :=
  match n with
  | O => (mipmaps, Normal)
  | S n' =>
      match push_level i image currWidth currHeight mipmaps with
      | inr c => (mipmaps, c)
      | inl mipmaps =>
          let currWidth := halve currWidth in
          let currHeight := halve currHeight in
          if i =? INT_MAX then (mipmaps, Undefined)
          else build_levels n' (i + 1) image currWidth currHeight mipmaps
      end
  end.

(** Lines 150-151: the two logarithms of [mipmaps[0]]. *)
Definition store_logs (this : Texture) : Texture * completion :=
  match nth_error (mipmaps this) 0 with
  | None => (this, Undefined)
  | Some m0 =>
      match log2_eps (cols m0) with
      | None => (this, Undefined)
      | Some wl =>
          let this := set_widthLog this wl in
          match log2_eps (rows m0) with
          | None => (this, Undefined)
          | Some hl => (set_heightLog this hl, Normal)
          end
      end
  end.

(** [Texture::create_mipmapped_texture] (lines 110-152).  The result is
    the state of the object when the call ends and the way it ends;
    [None] when [fuel] does not suffice for
    [get_max_possible_mipmaps_num]. *)
Definition create_mipmapped_texture (fuel : nat) (this : Texture)
    (image : Mat) (mipmapsNum : Z) : option (Texture * completion) :=
  match (if mipmapsNum =? 0
         then get_max_possible_mipmaps_num fuel (to_uint (cols image))
                                           (to_uint (rows image))
         else Some mipmapsNum) with
  | None => None
  | Some num =>
      let this := set_mipmaps_num this num in
      if (mipmaps_num this >? 1)
         && (negb (is_power_of_two (cols image))
             || negb (is_power_of_two (rows image)))
      then Some (this, Thrown (runtime_error not_power_of_two_msg))
      else
        match convertTo image CV_8UC4 with
        | Raise code => Some (this, Thrown (cv_Exception code))
        | Ok image =>
            match cvtColor image CV_BGR2BGRA with
            | Raise code => Some (this, Thrown (cv_Exception code))
            | Ok image =>
                let currWidth := cols image in
                let currHeight := rows image in
                match build_levels (Z.to_nat (mipmaps_num this)) 0 image
                                   currWidth currHeight (mipmaps this) with
                | (ms, Normal) => Some (store_logs (set_mipmaps this ms))
                | (ms, c) => Some (set_mipmaps this ms, c)
                end
            end
        end
  end.

End CreateMipmappedTexture.

(** The level count the call resolves: the argument, or the result of
    [get_max_possible_mipmaps_num] for the argument 0. *)
Definition resolved_count (fuel : nat) (image : Mat) (mipmapsNum : Z)
  : option Z :=
  if mipmapsNum =? 0
  then get_max_possible_mipmaps_num fuel (to_uint (cols image))
                                    (to_uint (rows image))
  else Some mipmapsNum.

(** The validation of lines 122-128. *)
Definition rejects (num : Z) (image : Mat) : bool :=
  (num >? 1)
  && (negb (is_power_of_two (cols image))
      || negb (is_power_of_two (rows image))).

(** A matrix with at least one row and one column. *)
Definition nonempty (m : Mat) : Prop := 0 < cols m /\ 0 < rows m.

(** The sizes of a run of levels that starts at [cw] x [ch] and steps with
    [halve]. *)
Fixpoint halving_chain (cw ch : Z) (l : list Mat) : Prop :=
  match l with
  | [] => True
  | m :: l' =>
      cols m = cw /\ rows m = ch /\ halving_chain (halve cw) (halve ch) l'
  end.

(** The width and height of a level. *)
Definition dims (m : Mat) : Z * Z := (cols m, rows m).

(** A [Texture] object on which nothing was built yet. *)
Definition fresh (this : Texture) : Prop := mipmaps this = [].

(** A value-initialized [Texture]: no level, the other members zero. *)
Definition new_texture : Texture := mkTexture [] 0 0 0.

(* ================================================================== *)
(** * A small model of the three OpenCV operations

    [create_mipmapped_texture] is verified for any operations that keep the
    contract stated with the theorems below.  The definitions here are one
    such implementation, after the documented behaviour of OpenCV; the
    theorems are run on it. *)

(** The error code of a failed [CV_Assert]. *)
Definition CV_StsAssert : Z := -215.

(** [cv::saturate_cast<uchar>]. *)
Definition saturate_uchar (v : Z) : Z := Z.max 0 (Z.min 255 v).

(** [Mat::convertTo]: only the depth of [rtype] is used, the number of
    channels stays that of the source. *)
Definition cv_convertTo (src : Mat) (rtype : MatType) : result Mat :=
  let elems := match depth rtype with
               | CV_8U => map saturate_uchar (data src)
               | _ => data src
               end in
  Ok (mkMat (rows src) (cols src)
            (mkType (depth rtype) (channels (type src))) elems).

(** An alpha channel of 255 after every three elements. *)
Fixpoint add_alpha (d : list Z) : list Z :=
  match d with
  | b :: g :: r :: d' => b :: g :: r :: 255 :: add_alpha d'
  | _ => []
  end.

(** The alpha channel dropped: three elements kept of every four. *)
Fixpoint drop_alpha (d : list Z) : list Z :=
  match d with
  | b :: g :: r :: _ :: d' => b :: g :: r :: drop_alpha d'
  | _ => []
  end.

(** [cv::cvtColor]: a source of 3 or 4 channels is asserted. *)
Definition cv_cvtColor (src : Mat) (code : ColorConversionCode)
  : result Mat :=
  let scn := channels (type src) in
  if negb ((scn =? 3) || (scn =? 4)) then Raise CV_StsAssert
  else
    match code with
    | CV_BGR2BGRA =>
        Ok (mkMat (rows src) (cols src) (mkType (depth (type src)) 4)
                  (if scn =? 3 then add_alpha (data src) else data src))
    | CV_BGRA2BGR =>
        Ok (mkMat (rows src) (cols src) (mkType (depth (type src)) 3)
                  (if scn =? 4 then drop_alpha (data src) else data src))
    end.

(** The integers [0 .. n-1]. *)
Definition zrange (n : Z) : list Z := map Z.of_nat (seq 0 (Z.to_nat n)).

(** [d] cut into [k] pieces of [n] elements. *)
Fixpoint chunks (n k : nat) (d : list Z) : list (list Z) :=
  match k with
  | O => []
  | S k' => firstn n d :: chunks n k' (skipn n d)
  end.

(** [cv::resize] with nearest-neighbour sampling: an empty source and an
    empty [dsize] are asserted; the result has the type of the source. *)
Definition cv_resize (src dst : Mat) (dsize : Size) : result Mat :=
  if (rows src <=? 0) || (cols src <=? 0)
     || (width dsize <=? 0) || (height dsize <=? 0)
  then Raise CV_StsAssert
  else
    let cn := Z.to_nat (channels (type src)) in
    let src_rows :=
      chunks (Z.to_nat (cols src) * cn) (Z.to_nat (rows src)) (data src) in
    Ok (mkMat (height dsize) (width dsize) (type src)
          (flat_map
             (fun y =>
                let row :=
                  nth (Z.to_nat (y * rows src / height dsize)) src_rows [] in
                flat_map
                  (fun x =>
                     firstn cn
                       (skipn (Z.to_nat (x * cols src / width dsize) * cn) row))
                  (zrange (width dsize)))
             (zrange (height dsize)))).

(** The error code of a failed allocation. *)
Definition CV_StsNoMem : Z := -4.

(** A [resize] that has no memory left for an output of more than
    [limit] pixels, and is [cv_resize] otherwise. *)
Definition cv_resize_limited (limit : Z) (src dst : Mat) (dsize : Size)
  : result Mat :=
  if limit <? width dsize * height dsize
  then Raise CV_StsNoMem
  else cv_resize src dst dsize.

(** A test image of [c] channels of depth 8U, all elements [v]. *)
Definition solid (rows cols c v : Z) : Mat :=
  mkMat rows cols (mkType CV_8U c) (repeat v (Z.to_nat (rows * cols * c))).

(** A 4 x 2 image of three channels. *)
Definition image_4x2 : Mat :=
  mkMat 2 4 CV_8UC3
        [1; 2; 3;  4; 5; 6;  7; 8; 9;  10; 11; 12;
         13; 14; 15;  16; 17; 18;  19; 20; 21;  22; 23; 24].

(* ================================================================== *)
(** * The coordinate mapper *)

Lemma to_float_nonzero (z : Z) : 0 < z -> ~ (to_float z == 0)%Q.
Proof.
  intros Hz Heq. unfold to_float, Qeq in Heq. simpl in Heq. lia.
Qed.

(** ** The three points in binary32 *)







(** C5.  Over the rationals [screen_to_clip_space] undoes
    [clip_to_screen_space] exactly, for every point and every positive
    width and height. *)
Theorem screen_to_clip_space_inverts (p : Vec2f) (w h : Z) :
  0 < w -> 0 < h ->
  screen_to_clip_space (clip_to_screen_space p w h) w h =v= p.
Proof.
  intros Hw Hh.
  pose proof (to_float_nonzero w Hw) as Hw0.
  pose proof (to_float_nonzero h Hh) as Hh0.
  destruct p as [x y].
  unfold screen_to_clip_space, clip_to_screen_space, Vec2f_eq; cbn [v0 v1].
  split; field; assumption.
Qed.

Lemma screen_to_clip_space_inverts_witness :
  0 < 640 /\ 0 < 480 /\
  screen_to_clip_space
    (clip_to_screen_space (mkVec2f (3 # 10) (-7 # 9)) 640 480) 640 480
  =v= mkVec2f (3 # 10) (-7 # 9).
Proof.
  split; [lia | split; [lia | ]].
  apply (screen_to_clip_space_inverts (mkVec2f (3 # 10) (-7 # 9)) 640 480);
    lia.
Defined.

(** X1.  The other composition: [clip_to_screen_space] undoes
    [screen_to_clip_space]. *)
Lemma clip_to_screen_space_inverts (p : Vec2f) (w h : Z) :
  0 < w -> 0 < h ->
  clip_to_screen_space (screen_to_clip_space p w h) w h =v= p.
Proof.
  intros Hw Hh.
  pose proof (to_float_nonzero w Hw) as Hw0.
  pose proof (to_float_nonzero h Hh) as Hh0.
  destruct p as [x y].
  unfold screen_to_clip_space, clip_to_screen_space, Vec2f_eq; cbn [v0 v1].
  split; field; assumption.
Qed.

(** ** The same functions in binary32 *)

(** At 640 x 480 the three points of C6 are mapped exactly. *)
Example binary32_corners :
  Binary32.clip_to_screen_space (Binary32.of_int (-1), Binary32.of_int 1)
                                640 480
  = (S754_zero false, S754_zero false)
  /\ Binary32.clip_to_screen_space (Binary32.of_int 1, Binary32.of_int (-1))
                                   640 480
     = (Binary32.of_int 640, Binary32.of_int 480)
  /\ Binary32.clip_to_screen_space (Binary32.of_int 0, Binary32.of_int 0)
                                   640 480
     = (Binary32.of_int 320, Binary32.of_int 240).
Proof. repeat split; vm_compute; reflexivity. Qed.

(** The round trip of C5 is exact only up to rounding: from the [float]s
    nearest to (1/10, -7/9) it comes back three and two units in the last
    place off. *)
Example binary32_round_trip :
  (Binary32.tenth, Binary32.minus_seven_ninths)
  = (S754_finite false 13421773 (-27), S754_finite true 13048946 (-24))
  /\ Binary32.screen_to_clip_space
       (Binary32.clip_to_screen_space
          (Binary32.tenth, Binary32.minus_seven_ninths) 640 480) 640 480
     = (S754_finite false 13421776 (-27), S754_finite true 13048948 (-24)).
Proof. split; vm_compute; reflexivity. Qed.

(** On a point whose coordinates and images are [float]s, the binary32
    result is the rational one. *)
Example binary32_agrees_with_rational :
  let r := Binary32.clip_to_screen_space
             (Binary32.fdiv (Binary32.of_int 1) (Binary32.of_int 4),
              Binary32.fdiv (Binary32.of_int (-1)) (Binary32.of_int 2))
             640 480 in
  let q := clip_to_screen_space (mkVec2f (1 # 4) (-1 # 2)) 640 480 in
  match Binary32.value (fst r), Binary32.value (snd r) with
  | Some x, Some y => (x == v0 q)%Q /\ (y == v1 q)%Q
  | _, _ => False
  end.
Proof. vm_compute. split; reflexivity. Qed.

(** A width above 2^24 is rounded when it is converted to [float]: the
    corner (1, -1) is then mapped to the rounded width. *)
Example binary32_wide_screen :
  Binary32.clip_to_screen_space (Binary32.of_int 1, Binary32.of_int (-1))
                                16777217 480
  = (Binary32.of_int 16777216, Binary32.of_int 480).
Proof. vm_compute. reflexivity. Qed.

(* ================================================================== *)
(** * get_max_possible_mipmaps_num *)

Lemma to_uint_small (z : Z) : 0 <= z < UINT_MOD -> to_uint z = z.
Proof. intros H. unfold to_uint. apply Z.mod_small. exact H. Qed.

(** From [size = 0] the loop never reaches 1: every amount of fuel runs
    out. *)
Lemma mipmaps_num_loop_zero (fuel : nat) :
  forall mipmapsNum, mipmaps_num_loop fuel 0 mipmapsNum = None.
Proof.
  induction fuel as [|fuel IH]; intros num; cbn [mipmaps_num_loop].
  - reflexivity.
  - rewrite Z.shiftr_0_l. cbn [Z.eqb]. apply IH.
Qed.

(** From [size >= 2] the loop makes [log2 size] iterations. *)
Lemma mipmaps_num_loop_log2 (fuel : nat) :
  forall size mipmapsNum,
    2 <= size -> 0 <= mipmapsNum ->
    mipmapsNum + Z.log2 size < UINT_MOD ->
    Z.log2 size <= Z.of_nat fuel ->
    mipmaps_num_loop fuel size mipmapsNum = Some (mipmapsNum + Z.log2 size).
Proof.
  induction fuel as [|fuel IH]; intros size num Hsize Hnum Hwrap Hfuel.
  - assert (0 < Z.log2 size) by (apply Z.log2_pos; lia). lia.
  - cbn [mipmaps_num_loop].
    assert (Hpos : 0 < Z.log2 size) by (apply Z.log2_pos; lia).
    assert (Hhalf : Z.log2 (Z.shiftr size 1) = Z.log2 size - 1).
    { rewrite Z.log2_shiftr by lia. lia. }
    rewrite to_uint_small by lia.
    destruct (Z.shiftr size 1 =? 1) eqn:E.
    + apply Z.eqb_eq in E. rewrite E in Hhalf. cbn in Hhalf.
      f_equal. lia.
    + apply Z.eqb_neq in E.
      assert (1 <= Z.shiftr size 1).
      { rewrite Z.shiftr_div_pow2 by lia. change (2 ^ 1) with 2.
        apply Z.div_le_lower_bound; lia. }
      rewrite IH by lia. f_equal. lia.
Qed.

(** With enough fuel the function returns [log2 (max width height) + 1]. *)
Lemma get_max_possible_mipmaps_num_log2 (fuel : nat) (width height : Z) :
  1 <= Z.max width height < UINT_MOD ->
  Z.log2 (Z.max width height) <= Z.of_nat fuel ->
  get_max_possible_mipmaps_num fuel width height
  = Some (Z.log2 (Z.max width height) + 1).
Proof.
  intros Hmax Hfuel. unfold get_max_possible_mipmaps_num.
  destruct (Z.max width height =? 1) eqn:E.
  - apply Z.eqb_eq in E. rewrite E. reflexivity.
  - apply Z.eqb_neq in E.
    assert (Z.log2 (Z.max width height) < 32).
    { apply Z.log2_lt_pow2; [lia | exact (proj2 Hmax)]. }
    rewrite mipmaps_num_loop_log2; try lia.
    + f_equal. lia.
    + unfold UINT_MOD. lia.
Qed.

(** 32 units of fuel suffice for [unsigned int] arguments. *)
Lemma get_max_possible_mipmaps_num_fuel32 (fuel : nat) (width height : Z) :
  1 <= Z.max width height < UINT_MOD -> (32 <= fuel)%nat ->
  get_max_possible_mipmaps_num fuel width height
  = Some (Z.log2 (Z.max width height) + 1).
Proof.
  intros Hmax Hfuel. apply get_max_possible_mipmaps_num_log2; [exact Hmax|].
  assert (Z.log2 (Z.max width height) < 32).
  { apply Z.log2_lt_pow2; [lia | exact (proj2 Hmax)]. }
  lia.
Qed.

(** C10.  For [unsigned int] arguments, [get_max_possible_mipmaps_num]
    returns (for some amount of fuel, and then with 32 units) exactly when
    [max width height >= 1]; for [width = height = 0] the do-while loop
    shifts 0 for ever and no amount of fuel gives a result. *)
Theorem get_max_possible_mipmaps_num_terminates (width height : Z) :
  0 <= width < UINT_MOD -> 0 <= height < UINT_MOD ->
  ((exists fuel n, get_max_possible_mipmaps_num fuel width height = Some n)
   <-> 1 <= Z.max width height)
  /\ (1 <= Z.max width height ->
      get_max_possible_mipmaps_num 32 width height
      = Some (Z.log2 (Z.max width height) + 1))
  /\ (width = 0 -> height = 0 ->
      forall fuel, get_max_possible_mipmaps_num fuel width height = None).
Proof.
  intros Hw Hh.
  assert (Hzero : width = 0 -> height = 0 ->
          forall fuel, get_max_possible_mipmaps_num fuel width height = None).
  { intros -> -> fuel. unfold get_max_possible_mipmaps_num.
    cbn [Z.max Z.compare Z.eqb]. apply mipmaps_num_loop_zero. }
  split; [split | split].
  - intros (fuel & n & Hrun).
    destruct (Z.eq_dec width 0) as [Ew|Ew];
      destruct (Z.eq_dec height 0) as [Eh|Eh]; try lia.
    rewrite (Hzero Ew Eh fuel) in Hrun. discriminate.
  - intros Hmax. exists 32%nat, (Z.log2 (Z.max width height) + 1).
    apply get_max_possible_mipmaps_num_fuel32; lia.
  - intros Hmax. apply get_max_possible_mipmaps_num_fuel32; lia.
  - exact Hzero.
Qed.

Lemma get_max_possible_mipmaps_num_terminates_witness :
  (0 <= 100 < UINT_MOD) /\ (0 <= 50 < UINT_MOD)
  /\ get_max_possible_mipmaps_num 32 100 50 = Some 7
  /\ (forall fuel, get_max_possible_mipmaps_num fuel 0 0 = None).
Proof.
  assert (H100 : 0 <= 100 < UINT_MOD) by (unfold UINT_MOD; lia).
  assert (H50 : 0 <= 50 < UINT_MOD) by (unfold UINT_MOD; lia).
  assert (H0 : 0 <= 0 < UINT_MOD) by (unfold UINT_MOD; lia).
  split; [exact H100 | split; [exact H50 | split]].
  - exact (proj1 (proj2 (get_max_possible_mipmaps_num_terminates
                           100 50 H100 H50)) ltac:(lia)).
  - exact (proj2 (proj2 (get_max_possible_mipmaps_num_terminates
                           0 0 H0 H0)) eq_refl eq_refl).
Defined.

(** Whatever the fuel, a result of the loop is [log2 size] iterations
    away. *)
Lemma mipmaps_num_loop_result (fuel : nat) :
  forall size mipmapsNum n,
    mipmaps_num_loop fuel size mipmapsNum = Some n ->
    2 <= size -> 0 <= mipmapsNum ->
    mipmapsNum + Z.log2 size < UINT_MOD ->
    n = mipmapsNum + Z.log2 size.
Proof.
  induction fuel as [|fuel IH]; intros size num n Hrun Hsize Hnum Hwrap.
  - discriminate.
  - cbn [mipmaps_num_loop] in Hrun.
    assert (Hpos : 0 < Z.log2 size) by (apply Z.log2_pos; lia).
    assert (Hhalf : Z.log2 (Z.shiftr size 1) = Z.log2 size - 1).
    { rewrite Z.log2_shiftr by lia. lia. }
    rewrite to_uint_small in Hrun by lia.
    destruct (Z.shiftr size 1 =? 1) eqn:E.
    + apply Z.eqb_eq in E. rewrite E in Hhalf. cbn in Hhalf.
      injection Hrun as <-. lia.
    + apply Z.eqb_neq in E.
      assert (1 <= Z.shiftr size 1).
      { rewrite Z.shiftr_div_pow2 by lia. change (2 ^ 1) with 2.
        apply Z.div_le_lower_bound; lia. }
      rewrite (IH _ _ _ Hrun) by lia. lia.
Qed.

(** Whatever the fuel, a result of [get_max_possible_mipmaps_num] is
    [log2 (max width height) + 1]. *)
Lemma get_max_possible_mipmaps_num_result (fuel : nat) (width height n : Z) :
  get_max_possible_mipmaps_num fuel width height = Some n ->
  1 <= Z.max width height < UINT_MOD ->
  n = Z.log2 (Z.max width height) + 1.
Proof.
  unfold get_max_possible_mipmaps_num. intros Hrun Hmax.
  destruct (Z.max width height =? 1) eqn:E.
  - apply Z.eqb_eq in E. rewrite E. injection Hrun as <-. reflexivity.
  - apply Z.eqb_neq in E.
    assert (Z.log2 (Z.max width height) < 32).
    { apply Z.log2_lt_pow2; [lia | exact (proj2 Hmax)]. }
    rewrite (mipmaps_num_loop_result _ _ _ _ Hrun); try lia.
    unfold UINT_MOD. lia.
Qed.

(** More fuel does not change a result. *)
Lemma mipmaps_num_loop_more_fuel (fuel : nat) :
  forall size mipmapsNum n,
    mipmaps_num_loop fuel size mipmapsNum = Some n ->
    mipmaps_num_loop (S fuel) size mipmapsNum = Some n.
Proof.
  induction fuel as [|fuel IH]; intros size num n Hrun.
  - discriminate.
  - cbn [mipmaps_num_loop] in Hrun.
    change (mipmaps_num_loop (S (S fuel)) size num)
      with (let size' := Z.shiftr size 1 in
            let num' := to_uint (num + 1) in
            if size' =? 1 then Some num'
            else mipmaps_num_loop (S fuel) size' num').
    cbv zeta.
    destruct (Z.shiftr size 1 =? 1); [exact Hrun | apply IH; exact Hrun].
Qed.

Lemma get_max_possible_mipmaps_num_more_fuel (fuel : nat) (width height n : Z) :
  get_max_possible_mipmaps_num fuel width height = Some n ->
  get_max_possible_mipmaps_num (S fuel) width height = Some n.
Proof.
  unfold get_max_possible_mipmaps_num.
  destruct (Z.max width height =? 1); [trivial|].
  apply mipmaps_num_loop_more_fuel.
Qed.

(* ================================================================== *)
(** * is_power_of_two *)

Lemma is_power_of_two_land (x : Z) :
  is_power_of_two x = true <-> Z.land x (x - 1) = 0.
Proof.
  unfold is_power_of_two, int_to_bool. rewrite negb_involutive.
  apply Z.eqb_eq.
Qed.

Lemma is_power_of_two_pow2 (k : Z) : 0 <= k -> is_power_of_two (2 ^ k) = true.
Proof.
  intros Hk. apply is_power_of_two_land.
  rewrite Z.sub_1_r, <- Z.ones_equiv, Z.land_ones by exact Hk.
  apply Z.mod_same. apply Z.pow_nonzero; lia.
Qed.

(** A positive value that passes the test has a single bit set. *)
Lemma is_power_of_two_positive (x : Z) :
  0 < x -> is_power_of_two x = true -> x = 2 ^ Z.log2 x.
Proof.
  intros Hx Hp. apply is_power_of_two_land in Hp.
  destruct (Z.log2_spec x Hx) as [Hlo Hhi].
  destruct (Z.eq_dec x (2 ^ Z.log2 x)) as [E|E]; [exact E | exfalso].
  assert (Hk : Z.log2 (x - 1) = Z.log2 x).
  { apply Z.log2_unique; [apply Z.log2_nonneg | lia]. }
  assert (Hb1 : Z.testbit x (Z.log2 x) = true) by (apply Z.bit_log2; lia).
  assert (Hb2 : Z.testbit (x - 1) (Z.log2 x) = true).
  { rewrite <- Hk. apply Z.bit_log2.
    assert (0 < 2 ^ Z.log2 x) by (apply Z.pow_pos_nonneg; [lia | apply Z.log2_nonneg]).
    lia. }
  assert (Hb : Z.testbit (Z.land x (x - 1)) (Z.log2 x) = true).
  { rewrite Z.land_spec, Hb1, Hb2. reflexivity. }
  rewrite Hp, Z.bits_0 in Hb. discriminate.
Qed.

Lemma is_power_of_two_negative (x : Z) : x < 0 -> is_power_of_two x = false.
Proof.
  intros Hx. destruct (is_power_of_two x) eqn:E; [exfalso | reflexivity].
  apply is_power_of_two_land in E.
  assert (Z.land x (x - 1) < 0) by (apply Z.land_neg; lia).
  lia.
Qed.

(** The values the test accepts: zero and the powers of two. *)
Lemma is_power_of_two_iff (x : Z) :
  is_power_of_two x = true <-> x = 0 \/ exists k, 0 <= k /\ x = 2 ^ k.
Proof.
  split.
  - intros Hp. destruct (Z.lt_trichotomy x 0) as [Hn | [Hz | Hpos]].
    + rewrite (is_power_of_two_negative x Hn) in Hp. discriminate.
    + left. exact Hz.
    + right. exists (Z.log2 x). split; [apply Z.log2_nonneg|].
      apply is_power_of_two_positive; assumption.
  - intros [-> | (k & Hk & ->)]; [reflexivity|].
    apply is_power_of_two_pow2. exact Hk.
Qed.

(* ================================================================== *)
(** * The step of the dimensions and the logarithm fields *)

Lemma halve_max (c : Z) : 1 <= c -> halve c = Z.max 1 (c / 2).
Proof.
  intros Hc. unfold halve. rewrite Z.shiftr_div_pow2 by lia.
  change (2 ^ 1) with 2.
  destruct (c >? 1) eqn:E.
  - apply Z.gtb_lt in E.
    assert (1 <= c / 2) by (apply Z.div_le_lower_bound; lia). lia.
  - assert (c = 1) by (rewrite Z.gtb_ltb in E; apply Z.ltb_ge in E; lia).
    subst c. reflexivity.
Qed.

Lemma halve_positive (c : Z) : 0 < halve c -> 1 <= c.
Proof.
  unfold halve. destruct (c >? 1) eqn:E; [|lia].
  apply Z.gtb_lt in E. lia.
Qed.

Lemma ln_IZR_pow2 (m : Z) : 0 <= m -> ln (IZR (2 ^ m)) = (IZR m * ln 2)%R.
Proof.
  intros Hm. rewrite <- (Z2Nat.id m Hm) at 1.
  rewrite <- pow_IZR, ln_pow by lra.
  rewrite INR_IZR_INZ, Z2Nat.id by exact Hm. reflexivity.
Qed.

Lemma ln_IZR_pow (n e : Z) :
  0 < n -> 0 <= e -> ln (IZR (n ^ e)) = (IZR e * ln (IZR n))%R.
Proof.
  intros Hn He. rewrite <- (Z2Nat.id e He) at 1.
  rewrite <- pow_IZR, ln_pow by (apply IZR_lt; exact Hn).
  rewrite INR_IZR_INZ, Z2Nat.id by exact He. reflexivity.
Qed.

(** The integer part of [log2 n + 1/e], with integers only. *)
Lemma Zfloor_log2_plus_inv (n e : Z) :
  1 <= n -> 0 < e ->
  Zfloor (ln (IZR n) / ln 2 + / IZR e) = Z.log2 (2 * n ^ e) / e.
Proof.
  intros Hn He.
  assert (Hpow : 0 < n ^ e) by (apply Z.pow_pos_nonneg; lia).
  set (P := 2 * n ^ e).
  assert (HP : 0 < P) by (unfold P; lia).
  destruct (Z.log2_spec P HP) as [Hlo Hhi].
  pose proof (Z.log2_nonneg P) as HL.
  set (L := Z.log2 P) in *.
  assert (Hln2 : (0 < ln 2)%R) by (rewrite <- ln_1; apply ln_increasing; lra).
  assert (HeR : (0 < IZR e)%R) by (apply IZR_lt; exact He).
  assert (HlnP : ln (IZR P) = (ln 2 + IZR e * ln (IZR n))%R).
  { unfold P. rewrite mult_IZR, ln_mult.
    - rewrite ln_IZR_pow by lia. reflexivity.
    - lra.
    - apply IZR_lt. exact Hpow. }
  assert (H1 : (IZR L * ln 2 <= ln 2 + IZR e * ln (IZR n))%R).
  { rewrite <- HlnP, <- ln_IZR_pow2 by exact HL.
    assert (Hpl : (0 < IZR (2 ^ L))%R).
    { apply IZR_lt. apply Z.pow_pos_nonneg; lia. }
    destruct (Z.eq_dec (2 ^ L) P) as [E|E]; [rewrite E; lra|].
    apply Rlt_le. apply ln_increasing; [exact Hpl|].
    apply IZR_lt. lia. }
  assert (H2 : (ln 2 + IZR e * ln (IZR n) < (IZR L + 1) * ln 2)%R).
  { rewrite <- HlnP. rewrite <- plus_IZR.
    rewrite <- ln_IZR_pow2 by lia.
    apply ln_increasing; [apply IZR_lt; exact HP|].
    apply IZR_lt. rewrite Z.add_1_r. exact Hhi. }
  set (q := L / e).
  assert (Hq1 : e * q <= L) by (apply Z.mul_div_le; exact He).
  assert (Hq2 : L < e * (q + 1)).
  { rewrite Z.mul_add_distr_l, Z.mul_1_r.
    pose proof (Z.mod_pos_bound L e He) as Hm.
    rewrite (Z.div_mod L e) at 1 by lia. fold q. lia. }
  apply IZR_le in Hq1. rewrite mult_IZR in Hq1.
  assert (Hq2' : (IZR L + 1 <= IZR e * (IZR q + 1))%R).
  { rewrite <- !plus_IZR, <- mult_IZR. apply IZR_le. lia. }
  set (x := (ln (IZR n) / ln 2)%R).
  assert (Hx : ln (IZR n) = (x * ln 2)%R) by (unfold x; field; lra).
  rewrite Hx in H1, H2.
  assert (H1' : (IZR L <= 1 + IZR e * x)%R) by nra.
  assert (H2' : (1 + IZR e * x < IZR L + 1)%R) by nra.
  apply Zfloor_eq.
  assert (Hinv : (IZR e * / IZR e = 1)%R) by (field; lra).
  split.
  - apply (Rmult_le_reg_l (IZR e)); [exact HeR|].
    rewrite Rmult_plus_distr_l, Hinv. lra.
  - apply (Rmult_lt_reg_l (IZR e)); [exact HeR|].
    rewrite Rmult_plus_distr_l, Hinv. lra.
Qed.

(** [log2_eps n] is the integer part of the real [log2 n + 0.0001]. *)
Lemma log2_eps_floor (n : Z) :
  1 <= n ->
  log2_eps n = Some (Zfloor (ln (IZR n) / ln 2 + 1 / 10000)).
Proof.
  intros Hn. unfold log2_eps.
  destruct (n <? 1) eqn:E; [apply Z.ltb_lt in E; lia|].
  f_equal. symmetry.
  replace (1 / 10000)%R with (/ IZR 10000)%R by lra.
  apply Zfloor_log2_plus_inv; lia.
Qed.

(** On a power of two the field is the exponent. *)
Lemma log2_eps_pow2 (k : Z) : 0 <= k -> log2_eps (2 ^ k) = Some k.
Proof.
  intros Hk. unfold log2_eps.
  assert (0 < 2 ^ k) by (apply Z.pow_pos_nonneg; lia).
  destruct (2 ^ k <? 1) eqn:E; [apply Z.ltb_lt in E; lia|].
  f_equal.
  rewrite <- Z.pow_mul_r, <- Z.pow_succ_r by lia.
  rewrite Z.log2_pow2 by lia.
  replace (Z.succ (k * 10000)) with (1 + k * 10000) by lia.
  rewrite Z.div_add by lia. reflexivity.
Qed.

Lemma log2_eps_defined (n : Z) : 1 <= n -> exists l, log2_eps n = Some l.
Proof.
  intros Hn. unfold log2_eps.
  destruct (n <? 1) eqn:E; [apply Z.ltb_lt in E; lia|].
  eexists. reflexivity.
Qed.

Lemma log2_eps_positive (n l : Z) : log2_eps n = Some l -> 1 <= n.
Proof.
  unfold log2_eps. destruct (n <? 1) eqn:E; [discriminate|].
  intros _. apply Z.ltb_ge in E. exact E.
Qed.

Lemma pow10000_bound (n : Z) :
  0 <= n < 2 ^ 31 -> 2 * n ^ 10000 < 2 ^ 310001.
Proof.
  intros Hn.
  assert (H0 : 0 < 10000) by lia.
  assert (H1 : 0 <= 31) by lia.
  assert (H2 : 0 <= 10000) by lia.
  assert (H3 : 0 <= 1) by lia.
  assert (H4 : 0 <= 310000) by lia.
  pose proof (Z.pow_lt_mono_l n (2 ^ 31) 10000 H0 Hn) as Hlt.
  rewrite <- (Z.pow_mul_r 2 31 10000 H1 H2) in Hlt.
  change (31 * 10000) with 310000 in Hlt.
  change 310001 with (1 + 310000).
  rewrite (Z.pow_add_r 2 1 310000 H3 H4), Z.pow_1_r.
  revert Hlt. generalize (n ^ 10000). generalize (2 ^ 310000).
  intros a b Hlt. lia.
Qed.

(** For a positive [int] the field fits [unsigned char]: the cast of
    line 150 only drops the fraction. *)
Lemma log2_eps_range (n l : Z) :
  1 <= n <= INT_MAX -> log2_eps n = Some l -> 0 <= l <= 31.
Proof.
  intros Hn. unfold log2_eps.
  destruct (n <? 1) eqn:E; [apply Z.ltb_lt in E; lia|].
  intros Hl.
  assert (El : Z.log2 (2 * n ^ 10000) / 10000 = l) by congruence.
  clear Hl. subst l.
  assert (Hn31 : 0 <= n < 2 ^ 31) by (unfold INT_MAX in Hn; lia).
  assert (Hpow : 0 < n ^ 10000) by (apply Z.pow_pos_nonneg; lia).
  assert (Hpos : 0 < 2 * n ^ 10000) by (apply Z.mul_pos_pos; [lia | exact Hpow]).
  pose proof (proj1 (Z.log2_lt_pow2 _ 310001 Hpos) (pow10000_bound n Hn31))
    as Hlog.
  pose proof (Z.log2_nonneg (2 * n ^ 10000)) as Hnonneg.
  revert Hlog Hnonneg. generalize (Z.log2 (2 * n ^ 10000)).
  clear. intros L Hlog Hnonneg.
  split.
  - apply Z.div_pos; lia.
  - assert (L / 10000 < 32); [apply Z.div_lt_upper_bound; lia | lia].
Qed.

(* ================================================================== *)
(** * create_mipmapped_texture *)

Lemma to_uint_range (z : Z) : 0 <= to_uint z < UINT_MOD.
Proof. unfold to_uint. apply Z.mod_pos_bound. reflexivity. Qed.

Lemma get_max_possible_mipmaps_num_positive fuel width height n :
  0 <= width < UINT_MOD -> 0 <= height < UINT_MOD ->
  get_max_possible_mipmaps_num fuel width height = Some n ->
  1 <= Z.max width height /\ n = Z.log2 (Z.max width height) + 1.
Proof.
  intros Hw Hh Hrun.
  assert (Hmax : 1 <= Z.max width height < UINT_MOD).
  { split; [|lia].
    destruct (Z.eq_dec (Z.max width height) 0) as [E|E]; [|lia].
    exfalso. unfold get_max_possible_mipmaps_num in Hrun. rewrite E in Hrun.
    cbn [Z.eqb] in Hrun. rewrite mipmaps_num_loop_zero in Hrun.
    discriminate. }
  split; [lia|].
  exact (get_max_possible_mipmaps_num_result _ _ _ _ Hrun Hmax).
Qed.

(** The resolved count of an [unsigned int] argument is at least 1. *)
Lemma resolved_count_positive fuel image mipmapsNum num :
  0 <= mipmapsNum ->
  resolved_count fuel image mipmapsNum = Some num -> 1 <= num.
Proof.
  intros Hn. unfold resolved_count.
  destruct (mipmapsNum =? 0) eqn:E.
  - intros Hrun.
    destruct (get_max_possible_mipmaps_num_positive _ _ _ _
                (to_uint_range _) (to_uint_range _) Hrun) as [Hmax ->].
    pose proof (Z.log2_nonneg
                  (Z.max (to_uint (cols image)) (to_uint (rows image)))).
    lia.
  - apply Z.eqb_neq in E. intros [= <-]. lia.
Qed.

Section TextureProperties.

Variable convertTo : Mat -> MatType -> result Mat.
Variable cvtColor : Mat -> ColorConversionCode -> result Mat.
Variable resize : Mat -> Mat -> Size -> result Mat.


(** ** The shape of a run, whatever the OpenCV operations do *)

(** A body that reaches its [push_back] appends one matrix: the image at
    index 0, the resized [mipmaps[i-1]] after that. *)
Lemma push_level_inl i image cw ch ms ms' :
  push_level resize i image cw ch ms = inl ms' ->
  exists m,
    ms' = ms ++ [m]
    /\ (i = 0 -> m = image)
    /\ (i <> 0 ->
        exists prev,
          nth_error ms (Z.to_nat (i - 1)) = Some prev
          /\ resize prev (Mat_new ch cw CV_8UC4) (mkSize cw ch) = Ok m).
Proof.
  unfold push_level. destruct (i =? 0) eqn:Ei.
  - apply Z.eqb_eq in Ei. intros [= <-]. exists image.
    split; [reflexivity | split; [reflexivity | lia]].
  - apply Z.eqb_neq in Ei.
    destruct (nth_error ms (Z.to_nat (i - 1))) as [prev|] eqn:Ep;
      [|discriminate].
    change (Mat_size (Mat_new ch cw CV_8UC4)) with (mkSize cw ch).
    destruct (resize prev _ _) as [m|code] eqn:Er; [|discriminate].
    intros [= <-]. exists m.
    split; [reflexivity | split; [lia | intros _]].
    exists prev. split; [reflexivity | exact Er].
Qed.

(** A body that does not reach its [push_back] was thrown out of by
    [resize], or indexed outside the vector. *)
Lemma push_level_inr i image cw ch ms c :
  push_level resize i image cw ch ms = inr c ->
  i <> 0
  /\ (c = Undefined \/ exists code, c = Thrown (cv_Exception code)).
Proof.
  unfold push_level. destruct (i =? 0) eqn:Ei; [discriminate|].
  apply Z.eqb_neq in Ei. intros Hp. split; [exact Ei|]. revert Hp.
  destruct (nth_error ms (Z.to_nat (i - 1))) as [prev|].
  - destruct (resize prev _ _) as [m|code]; [discriminate|].
    intros [= <-]. right. exists code. reflexivity.
  - intros [= <-]. left. reflexivity.
Qed.

(** The loop only appends: at most [n] matrices, exactly [n] when it runs
    to its end, fewer when [resize] throws.  A loop started at index 0
    appends the image first, before [resize] is called at all. *)
Lemma build_levels_app n :
  forall i image cw ch ms ms' c,
    build_levels resize n i image cw ch ms = (ms', c) ->
    exists new,
      ms' = ms ++ new
      /\ (length new <= n)%nat
      /\ (c = Normal -> length new = n)
      /\ (i = 0 -> forall m, nth_error new 0 = Some m -> m = image)
      /\ (forall e, c = Thrown e ->
          (length new < n)%nat /\ (i = 0 -> new <> [])).
Proof.
  induction n as [|n IH]; intros i image cw ch ms ms' c Hrun;
    cbn [build_levels] in Hrun.
  - injection Hrun as <- <-. exists []. rewrite app_nil_r.
    repeat split; try reflexivity; try discriminate; try (cbn; lia).
  - destruct (push_level resize i image cw ch ms) as [ms1|c1] eqn:Ep.
    + destruct (push_level_inl _ _ _ _ _ _ Ep) as (m & -> & Hm0 & _).
      destruct (i =? INT_MAX) eqn:Ei.
      * injection Hrun as <- <-. exists [m].
        split; [reflexivity | split; [cbn; lia | split; [discriminate|]]].
        split; [|discriminate].
        intros Hi m' [= <-]. exact (Hm0 Hi).
      * destruct (IH _ _ _ _ _ _ _ Hrun) as (new & -> & Hle & Hn & _ & Hthrow).
        exists (m :: new). rewrite <- app_assoc. cbn [app length].
        split; [reflexivity | split; [lia | split; [|split]]].
        -- intros Hc. rewrite (Hn Hc). reflexivity.
        -- intros Hi m' [= <-]. exact (Hm0 Hi).
        -- intros e Hc. destruct (Hthrow e Hc) as [Hlt _].
           split; [lia | discriminate].
    + injection Hrun as <- <-. exists []. rewrite app_nil_r.
      destruct (push_level_inr _ _ _ _ _ _ Ep) as [Hi Hc].
      split; [reflexivity | split; [cbn; lia | split; [|split]]].
      * intros ->. destruct Hc as [Hc | [code Hc]]; discriminate.
      * intros _ m [=].
      * intros e _. split; [cbn; lia | intros Hi0; contradiction].
Qed.

(** The loop throws nothing but what [resize] throws. *)
Lemma build_levels_thrown n :
  forall i image cw ch ms ms' e,
    build_levels resize n i image cw ch ms = (ms', Thrown e) ->
    exists code, e = cv_Exception code.
Proof.
  induction n as [|n IH]; intros i image cw ch ms ms' e Hrun;
    cbn [build_levels] in Hrun.
  - discriminate.
  - destruct (push_level resize i image cw ch ms) as [ms1|c1] eqn:Ep.
    + destruct (i =? INT_MAX); [discriminate|].
      exact (IH _ _ _ _ _ _ _ Hrun).
    + injection Hrun as <- ->.
      destruct (push_level_inr _ _ _ _ _ _ Ep) as [_ [Hc | [code Hc]]];
        [discriminate|].
      injection Hc as ->. exists code. reflexivity.
Qed.


(** A body that throws was thrown out of by [resize], called on
    [mipmaps[i-1]] for the size [currWidth] x [currHeight]. *)
Lemma push_level_thrown i image cw ch ms e :
  push_level resize i image cw ch ms = inr (Thrown e) ->
  i <> 0
  /\ exists code prev,
       e = cv_Exception code
       /\ nth_error ms (Z.to_nat (i - 1)) = Some prev
       /\ resize_to resize prev cw ch = Raise code.
Proof.
  unfold push_level, resize_to. destruct (i =? 0) eqn:Ei; [discriminate|].
  apply Z.eqb_neq in Ei. intros Hp. split; [exact Ei|]. revert Hp.
  destruct (nth_error ms (Z.to_nat (i - 1))) as [prev|]; [|discriminate].
  destruct (resize prev _ _) as [m|code] eqn:Er; [discriminate|].
  intros [= <-]. exists code, prev. auto.
Qed.

(** The loop step by step.  Level [j] of the appended ones is the image,
    when it is level 0 of a loop started at index 0, and otherwise what
    [resize] returned for [mipmaps[i-1]] and the values of [currWidth] and
    [currHeight] in that iteration.  When the loop throws, the exception
    carries the code that [resize] raised on [mipmaps[i-1]] for the level
    it was about to build. *)
Lemma build_levels_trace n :
  forall i image cw ch ms new c,
    build_levels resize n i image cw ch ms = (ms ++ new, c) ->
    0 <= i ->
    (forall j level,
        nth_error new j = Some level ->
        (i + Z.of_nat j = 0 /\ level = image)
        \/ (i + Z.of_nat j <> 0
            /\ exists src,
                 nth_error (ms ++ new) (Z.to_nat (i + Z.of_nat j - 1))
                 = Some src
                 /\ resize_to resize src (halve_iter cw j) (halve_iter ch j)
                    = Ok level))
    /\ (forall e,
          c = Thrown e ->
          i + Z.of_nat (length new) <> 0
          /\ exists code src,
               e = cv_Exception code
               /\ nth_error (ms ++ new)
                            (Z.to_nat (i + Z.of_nat (length new) - 1))
                  = Some src
               /\ resize_to resize src (halve_iter cw (length new))
                                       (halve_iter ch (length new))
                  = Raise code).
Proof.
  induction n as [|n IH]; intros i image cw ch ms new c Hrun Hi;
    cbn [build_levels] in Hrun.
  - injection Hrun as Hms <-. rewrite <- (app_nil_r ms) in Hms at 1.
    apply app_inv_head in Hms. subst new.
    split; [intros [|j] level [=] | intros e [=]].
  - destruct (push_level resize i image cw ch ms) as [ms1|c1] eqn:Ep.
    + destruct (push_level_inl _ _ _ _ _ _ Ep) as (m & -> & Hm0 & Hm1).
      assert (Hfirst : forall new',
                 (i + Z.of_nat 0 = 0 /\ m = image)
                 \/ (i + Z.of_nat 0 <> 0
                     /\ exists src,
                          nth_error (ms ++ m :: new')
                                    (Z.to_nat (i + Z.of_nat 0 - 1)) = Some src
                          /\ resize_to resize src (halve_iter cw 0)
                                                  (halve_iter ch 0) = Ok m)).
      { intros new'. destruct (Z.eq_dec i 0) as [E | E].
        - left. split; [lia | exact (Hm0 E)].
        - right. split; [lia|].
          destruct (Hm1 E) as (prev & Hprev & Hres).
          exists prev. split; [|exact Hres].
          replace (i + Z.of_nat 0 - 1) with (i - 1) by lia.
          rewrite nth_error_app1; [exact Hprev|].
          apply nth_error_Some. rewrite Hprev. discriminate. }
      destruct (i =? INT_MAX).
      * injection Hrun as Hms <-. apply app_inv_head in Hms. subst new.
        split; [|intros e [=]].
        intros [|j] level Hj; [|destruct j; discriminate].
        injection Hj as <-. exact (Hfirst []).
      * destruct (build_levels_app _ _ _ _ _ _ _ _ Hrun)
          as (new' & Enew & _).
        assert (E : new = m :: new').
        { rewrite <- app_assoc in Enew.
          apply app_inv_head in Enew. exact Enew. }
        subst new.
        replace (ms ++ m :: new') with ((ms ++ [m]) ++ new') in Hrun
          by (rewrite <- app_assoc; reflexivity).
        destruct (IH _ _ _ _ _ _ _ Hrun ltac:(lia)) as [Hlevels Hthrown].
        split.
        -- intros [|j] level Hj.
           ++ injection Hj as <-. exact (Hfirst new').
           ++ cbn [nth_error] in Hj. right. split; [lia|].
              destruct (Hlevels j level Hj)
                as [[Hz _] | (_ & src & Hsrc & Hres)]; [lia|].
              exists src. split; [|exact Hres].
              rewrite <- app_assoc in Hsrc. cbn [app] in Hsrc.
              replace (i + Z.of_nat (S j) - 1) with (i + 1 + Z.of_nat j - 1)
                by lia.
              exact Hsrc.
        -- intros e Hc. split; [cbn [length]; lia|].
           destruct (Hthrown e Hc) as (_ & code & src & He & Hsrc & Hres).
           exists code, src. split; [exact He|]. split; [|exact Hres].
           rewrite <- app_assoc in Hsrc. cbn [app] in Hsrc.
           cbn [length].
           replace (i + Z.of_nat (S (length new')) - 1)
             with (i + 1 + Z.of_nat (length new') - 1) by lia.
           exact Hsrc.
    + injection Hrun as Hms <-. rewrite <- (app_nil_r ms) in Hms at 1.
      apply app_inv_head in Hms. subst new.
      split; [intros [|j] level [=]|].
      intros e ->.
      destruct (push_level_thrown _ _ _ _ _ _ Ep)
        as (Hi0 & code & prev & He & Hprev & Hres).
      split; [cbn [length]; lia|].
      exists code, prev. split; [exact He|]. split; [|exact Hres].
      rewrite app_nil_r. cbn [length].
      replace (i + Z.of_nat 0 - 1) with (i - 1) by lia. exact Hprev.
Qed.

(** Every call that ends has stored the resolved level count. *)
Lemma create_mipmaps_num fuel this image mipmapsNum t' c :
  create_mipmapped_texture convertTo cvtColor resize fuel this image mipmapsNum = Some (t', c) ->
  resolved_count fuel image mipmapsNum = Some (mipmaps_num t').
Proof.
  unfold create_mipmapped_texture, resolved_count.
  destruct (if mipmapsNum =? 0 then _ else _) as [num|]; [|discriminate].
  cbn [mipmaps_num set_mipmaps_num].
  destruct (_ && _).
  { intros [= <- <-]. reflexivity. }
  destruct (convertTo image CV_8UC4) as [m1|code].
  2:{ intros [= <- <-]. reflexivity. }
  destruct (cvtColor m1 CV_BGR2BGRA) as [m2|code].
  2:{ intros [= <- <-]. reflexivity. }
  destruct (build_levels resize _ _ _ _ _ _) as [ms c'].
  assert (Hlogs : forall t0 t1 c1,
             store_logs t0 = (t1, c1) -> mipmaps_num t1 = mipmaps_num t0).
  { intros t0 t1 c1. unfold store_logs.
    destruct (nth_error (mipmaps t0) 0) as [m0|]; [|intros [= <- <-]; reflexivity].
    destruct (log2_eps (cols m0)); [|intros [= <- <-]; reflexivity].
    destruct (log2_eps (rows m0)); intros [= <- <-]; reflexivity. }
  destruct c'.
  - destruct (store_logs _) as [t1 c1] eqn:El. intros [= <- <-].
    rewrite (Hlogs _ _ _ El). reflexivity.
  - intros [= <- <-]. reflexivity.
  - intros [= <- <-]. reflexivity.
Qed.

Lemma store_logs_inv t0 t1 c1 :
  store_logs t0 = (t1, c1) ->
  mipmaps t1 = mipmaps t0
  /\ mipmaps_num t1 = mipmaps_num t0
  /\ (c1 = Normal \/ c1 = Undefined)
  /\ (c1 = Normal ->
      exists m0,
        nth_error (mipmaps t0) 0 = Some m0
        /\ log2_eps (cols m0) = Some (widthLog t1)
        /\ log2_eps (rows m0) = Some (heightLog t1)).
Proof.
  unfold store_logs.
  destruct (nth_error (mipmaps t0) 0) as [m0|].
  2:{ intros [= <- <-]. repeat split; auto. discriminate. }
  destruct (log2_eps (cols m0)) as [wl|] eqn:Ew.
  2:{ intros [= <- <-]. repeat split; auto. discriminate. }
  destruct (log2_eps (rows m0)) as [hl|] eqn:Eh.
  2:{ intros [= <- <-]. repeat split; auto. discriminate. }
  intros [= <- <-]. repeat split; auto.
  intros _. exists m0. cbn. auto.
Qed.

(** The ways a call can end, in the order of the code: the validation
    throws; [convertTo] throws; [cvtColor] throws; the loop is left early;
    the loop runs to its end and the logarithms are stored. *)
Lemma create_cases fuel this image mipmapsNum t' c :
  create_mipmapped_texture convertTo cvtColor resize fuel this image mipmapsNum
  = Some (t', c) ->
  exists num,
    resolved_count fuel image mipmapsNum = Some num
    /\ ((rejects num image = true
         /\ t' = set_mipmaps_num this num
         /\ c = Thrown (runtime_error not_power_of_two_msg))
        \/ (rejects num image = false
            /\ ((exists code,
                    convertTo image CV_8UC4 = Raise code
                    /\ t' = set_mipmaps_num this num
                    /\ c = Thrown (cv_Exception code))
                \/ (exists m1 code,
                       convertTo image CV_8UC4 = Ok m1
                       /\ cvtColor m1 CV_BGR2BGRA = Raise code
                       /\ t' = set_mipmaps_num this num
                       /\ c = Thrown (cv_Exception code))
                \/ (exists m1 m2 ms c0,
                       convertTo image CV_8UC4 = Ok m1
                       /\ cvtColor m1 CV_BGR2BGRA = Ok m2
                       /\ build_levels resize (Z.to_nat num) 0 m2
                                       (cols m2) (rows m2) (mipmaps this)
                          = (ms, c0)
                       /\ ((c0 = Normal
                            /\ store_logs
                                 (set_mipmaps (set_mipmaps_num this num) ms)
                               = (t', c))
                           \/ (c0 <> Normal
                               /\ t' = set_mipmaps (set_mipmaps_num this num) ms
                               /\ c = c0)))))).
Proof.
  unfold create_mipmapped_texture, resolved_count, rejects.
  destruct (if mipmapsNum =? 0 then _ else _) as [num|]; [|discriminate].
  cbn [mipmaps_num set_mipmaps_num mipmaps].
  intros Hrun. exists num. split; [reflexivity|].
  destruct (_ && _).
  { left. injection Hrun as <- <-. repeat split. }
  right. split; [reflexivity|].
  destruct (convertTo image CV_8UC4) as [m1|code] eqn:E1.
  2:{ left. exists code. injection Hrun as <- <-. repeat split. }
  destruct (cvtColor m1 CV_BGR2BGRA) as [m2|code] eqn:E2.
  2:{ right. left. exists m1, code. injection Hrun as <- <-.
      repeat split. exact E2. }
  right. right.
  destruct (build_levels resize _ _ _ _ _ _) as [ms c0] eqn:Eb.
  exists m1, m2, ms, c0.
  split; [reflexivity | split; [exact E2 | split; [exact Eb|]]].
  clear Eb. destruct c0.
  - left. split; [reflexivity|].
    destruct (store_logs _) as [t1 c1]. injection Hrun as <- <-. reflexivity.
  - right. injection Hrun as <- <-. repeat split. discriminate.
  - right. injection Hrun as <- <-. repeat split. discriminate.
Qed.

(** A call ends, in one of the ways above, as soon as the level count is
    resolved: always for an explicit count, and with 32 units of fuel for
    the count 0 when the image has a column or a row. *)
Lemma create_ends fuel this image mipmapsNum :
  mipmapsNum <> 0
  \/ ((32 <= fuel)%nat
      /\ 1 <= Z.max (to_uint (cols image)) (to_uint (rows image))) ->
  exists t' c,
    create_mipmapped_texture convertTo cvtColor resize fuel this image
                             mipmapsNum = Some (t', c).
Proof.
  intros Hcount.
  assert (Hres : exists num, resolved_count fuel image mipmapsNum = Some num).
  { unfold resolved_count. destruct (mipmapsNum =? 0) eqn:E; [|eauto].
    apply Z.eqb_eq in E. destruct Hcount as [Hne | [Hfuel Hmax]]; [lia|].
    eexists. apply get_max_possible_mipmaps_num_fuel32; [|exact Hfuel].
    split; [exact Hmax|].
    pose proof (Z.mod_pos_bound (cols image) UINT_MOD eq_refl).
    pose proof (Z.mod_pos_bound (rows image) UINT_MOD eq_refl).
    unfold to_uint. lia. }
  destruct Hres as [num Hres].
  unfold create_mipmapped_texture.
  change (if mipmapsNum =? 0
          then get_max_possible_mipmaps_num fuel (to_uint (cols image))
                                            (to_uint (rows image))
          else Some mipmapsNum)
    with (resolved_count fuel image mipmapsNum).
  rewrite Hres.
  destruct (_ && _); [eauto|].
  destruct (convertTo image CV_8UC4) as [m1|code]; [|eauto].
  destruct (cvtColor m1 CV_BGR2BGRA) as [m2|code]; [|eauto].
  destruct (build_levels resize _ _ _ _ _ _) as [ms [| |]]; eauto.
  destruct (store_logs _). eauto.
Qed.

(** More fuel does not change the result of a call. *)
Lemma create_more_fuel fuel this image mipmapsNum r :
  create_mipmapped_texture convertTo cvtColor resize fuel this image
                           mipmapsNum = Some r ->
  create_mipmapped_texture convertTo cvtColor resize (S fuel) this image
                           mipmapsNum = Some r.
Proof.
  unfold create_mipmapped_texture.
  destruct (mipmapsNum =? 0); [|trivial].
  destruct (get_max_possible_mipmaps_num fuel _ _) as [num|] eqn:E;
    [|discriminate].
  rewrite (get_max_possible_mipmaps_num_more_fuel _ _ _ _ E). trivial.
Qed.

(** With the level count left to the method, a call on an empty image
    (0 x 0) never ends: [get_max_possible_mipmaps_num] loops. *)
Lemma create_loops_on_empty_image fuel this image :
  cols image = 0 -> rows image = 0 ->
  create_mipmapped_texture convertTo cvtColor resize fuel this image 0 = None.
Proof.
  intros Ec Er. unfold create_mipmapped_texture. cbn [Z.eqb].
  rewrite Ec, Er. change (to_uint 0) with 0.
  unfold get_max_possible_mipmaps_num. cbn [Z.max Z.compare Z.eqb].
  rewrite mipmaps_num_loop_zero. reflexivity.
Qed.

(** ** The contract of the OpenCV operations

    What the proofs below use of the three operations, after the OpenCV
    documentation: [convertTo] changes the depth and nothing else of the
    header; [cvtColor] with [CV_BGR2BGRA] gives four channels of the same
    depth and size, and takes a source of three or four channels only
    ([cvtColor_channels]); [resize] gives a matrix of size [dsize] and of the type
    of its source, rejects an empty [dsize] (either [dsize] or the two scale
    factors must be non-zero, and the method passes no scale factor), and
    ([resize_total]) succeeds on every non-empty source and size.  Each
    theorem depends on the parts it uses only. *)

Hypothesis convertTo_size : forall src rtype dst,
  convertTo src rtype = Ok dst -> cols dst = cols src /\ rows dst = rows src.
Hypothesis convertTo_type : forall src rtype dst,
  convertTo src rtype = Ok dst ->
  type dst = mkType (depth rtype) (channels (type src)).
Hypothesis cvtColor_size : forall src dst,
  cvtColor src CV_BGR2BGRA = Ok dst ->
  cols dst = cols src /\ rows dst = rows src.
Hypothesis cvtColor_type : forall src dst,
  cvtColor src CV_BGR2BGRA = Ok dst ->
  type dst = mkType (depth (type src)) 4.
Hypothesis cvtColor_channels : forall src dst,
  cvtColor src CV_BGR2BGRA = Ok dst ->
  channels (type src) = 3 \/ channels (type src) = 4.
Hypothesis resize_size : forall src dst dsize r,
  resize src dst dsize = Ok r ->
  cols r = width dsize /\ rows r = height dsize.
Hypothesis resize_nonempty : forall src dst dsize r,
  resize src dst dsize = Ok r -> 0 < width dsize /\ 0 < height dsize.
Hypothesis resize_type : forall src dst dsize r,
  resize src dst dsize = Ok r -> type r = type src.
Hypothesis resize_total : forall src dst dsize,
  nonempty src -> 0 < width dsize -> 0 < height dsize ->
  exists r, resize src dst dsize = Ok r.


Lemma normalized_size image m1 m2 :
  convertTo image CV_8UC4 = Ok m1 -> cvtColor m1 CV_BGR2BGRA = Ok m2 ->
  cols m2 = cols image /\ rows m2 = rows image.
Proof.
  intros H1 H2.
  destruct (cvtColor_size _ _ H2) as [-> ->].
  exact (convertTo_size _ _ _ H1).
Qed.


(** The sizes of the appended levels: they start at [cw] x [ch] and step
    with [halve]. *)
Lemma build_levels_dims n :
  forall i image cw ch ms ms' c,
    build_levels resize n i image cw ch ms = (ms', c) ->
    0 <= i ->
    (i = 0 -> cols image = cw /\ rows image = ch) ->
    exists new, ms' = ms ++ new /\ halving_chain cw ch new.
Proof.
  induction n as [|n IH]; intros i image cw ch ms ms' c Hrun Hi Himg;
    cbn [build_levels] in Hrun.
  - injection Hrun as <- <-. exists []. rewrite app_nil_r.
    split; [reflexivity | exact I].
  - destruct (push_level resize i image cw ch ms) as [ms1|c1] eqn:Ep.
    + destruct (push_level_inl _ _ _ _ _ _ Ep) as (m & -> & Hm0 & Hm1).
      assert (Hdims : cols m = cw /\ rows m = ch).
      { destruct (Z.eq_dec i 0) as [Hi0|Hi0].
        - rewrite (Hm0 Hi0). exact (Himg Hi0).
        - destruct (Hm1 Hi0) as (prev & _ & Hres).
          exact (resize_size _ _ _ _ Hres). }
      destruct Hdims as [Hc Hr].
      destruct (i =? INT_MAX).
      * injection Hrun as <- <-. exists [m]. cbn [halving_chain]. auto.
      * assert (Hnext : i + 1 = 0 ->
                        cols image = halve cw /\ rows image = halve ch) by lia.
        destruct (IH _ _ _ _ _ _ _ Hrun ltac:(lia) Hnext)
          as (new & -> & Hchain).
        exists (m :: new). rewrite <- app_assoc. cbn [app halving_chain].
        auto.
    + injection Hrun as <- <-. exists []. rewrite app_nil_r.
      split; [reflexivity | exact I].
Qed.

(** Every level that [resize] made is non-empty. *)
Lemma build_levels_nonempty n :
  forall i image cw ch ms ms' c,
    build_levels resize n i image cw ch ms = (ms', c) ->
    0 <= i ->
    exists new,
      ms' = ms ++ new
      /\ (i <> 0 -> Forall nonempty new)
      /\ (i = 0 -> Forall nonempty (tl new)).
Proof.
  induction n as [|n IH]; intros i image cw ch ms ms' c Hrun Hi;
    cbn [build_levels] in Hrun.
  - injection Hrun as <- <-. exists []. rewrite app_nil_r.
    repeat split; constructor.
  - destruct (push_level resize i image cw ch ms) as [ms1|c1] eqn:Ep.
    + destruct (push_level_inl _ _ _ _ _ _ Ep) as (m & -> & _ & Hm1).
      assert (Hne : i <> 0 -> nonempty m).
      { intros Hi0. destruct (Hm1 Hi0) as (prev & _ & Hres).
        destruct (resize_nonempty _ _ _ _ Hres) as (Hw & Hh).
        destruct (resize_size _ _ _ _ Hres) as (Hc & Hr).
        cbn [width height] in Hw, Hh, Hc, Hr. unfold nonempty. lia. }
      destruct (i =? INT_MAX).
      * injection Hrun as <- <-. exists [m]. cbn [tl].
        repeat split; auto.
      * destruct (IH _ _ _ _ _ _ _ Hrun ltac:(lia)) as (new & -> & Hnew & _).
        exists (m :: new). rewrite <- app_assoc. cbn [app tl].
        assert (Hall : Forall nonempty new) by (apply Hnew; lia).
        repeat split; auto.
    + injection Hrun as <- <-. exists []. rewrite app_nil_r.
      repeat split; constructor.
Qed.

(** In a chain each level is the [halve] of the one before. *)
Lemma halving_chain_halve :
  forall j cw ch new a b,
    halving_chain cw ch new ->
    nth_error new j = Some a -> nth_error new (S j) = Some b ->
    cols b = halve (cols a) /\ rows b = halve (rows a).
Proof.
  induction j as [|j IH]; intros cw ch new a b Hchain Ha Hb.
  - destruct new as [|x [|y new]]; try discriminate.
    injection Ha as ->. injection Hb as ->.
    cbn [halving_chain] in Hchain.
    destruct Hchain as (-> & -> & -> & -> & _). auto.
  - destruct new as [|x new]; [discriminate|].
    cbn [halving_chain] in Hchain. destruct Hchain as (_ & _ & Hchain).
    cbn [nth_error] in Ha, Hb.
    exact (IH _ _ new a b Hchain Ha Hb).
Qed.

(** In a chain whose levels after the first are non-empty, each level is
    half the one before, rounded down and at least 1. *)
Lemma halving_chain_step :
  forall j cw ch new a b,
    halving_chain cw ch new -> Forall nonempty (tl new) ->
    nth_error new j = Some a -> nth_error new (S j) = Some b ->
    cols b = Z.max 1 (cols a / 2) /\ rows b = Z.max 1 (rows a / 2).
Proof.
  intros j cw ch new a b Hchain Hne Ha Hb.
  destruct (halving_chain_halve j _ _ _ a b Hchain Ha Hb) as [Hc Hr].
  assert (Hb' : nonempty b).
  { rewrite Forall_forall in Hne. apply Hne.
    destruct new as [|x new]; [discriminate|].
    cbn [tl]. cbn [nth_error] in Hb. exact (nth_error_In _ _ Hb). }
  destruct Hb' as [Hpc Hpr].
  rewrite Hc in Hpc. rewrite Hr in Hpr.
  apply halve_positive in Hpc. apply halve_positive in Hpr.
  rewrite Hc, Hr, !halve_max by lia. auto.
Qed.

Lemma halve_keeps_positive (c : Z) : 0 < c -> 0 < halve c.
Proof.
  intros Hc. unfold halve. destruct (c >? 1) eqn:E; [|exact Hc].
  apply Z.gtb_lt in E. rewrite Z.shiftr_div_pow2 by lia.
  change (2 ^ 1) with 2. apply Z.div_str_pos. lia.
Qed.

(** The loop runs to its end when the image and the levels already in the
    vector are non-empty and the counter stays inside [int]. *)
Lemma build_levels_returns n :
  forall i image cw ch ms,
    0 <= i -> i + Z.of_nat n <= INT_MAX ->
    i <= Z.of_nat (length ms) ->
    Forall nonempty ms -> nonempty image -> 0 < cw -> 0 < ch ->
    exists ms', build_levels resize n i image cw ch ms = (ms', Normal).
Proof.
  induction n as [|n IH]; intros i image cw ch ms Hi Hmax Hlen Hms Himg Hcw Hch;
    cbn [build_levels].
  - exists ms. reflexivity.
  - assert (Hpush : exists m, push_level resize i image cw ch ms = inl (ms ++ [m])
                              /\ nonempty m).
    { unfold push_level. destruct (i =? 0) eqn:Ei.
      - exists image. split; [reflexivity | exact Himg].
      - apply Z.eqb_neq in Ei.
        destruct (nth_error ms (Z.to_nat (i - 1))) as [prev|] eqn:Ep.
        + assert (Hprev : nonempty prev).
          { rewrite Forall_forall in Hms. apply Hms.
            exact (nth_error_In _ _ Ep). }
          change (Mat_size (Mat_new ch cw CV_8UC4)) with (mkSize cw ch).
          destruct (resize_total prev (Mat_new ch cw CV_8UC4) (mkSize cw ch)
                                 Hprev Hcw Hch) as [r Hr].
          rewrite Hr. exists r. split; [reflexivity|].
          destruct (resize_size _ _ _ _ Hr) as (Hc & Hrw).
          cbn [width height] in Hc, Hrw. unfold nonempty. lia.
        + apply nth_error_None in Ep. lia. }
    destruct Hpush as (m & -> & Hm).
    destruct (i =? INT_MAX) eqn:Ei; [apply Z.eqb_eq in Ei; lia|].
    apply IH; try lia.
    + rewrite length_app. cbn [length]. lia.
    + apply Forall_app. split; [exact Hms | constructor; [exact Hm | constructor]].
    + exact Himg.
    + apply halve_keeps_positive. exact Hcw.
    + apply halve_keeps_positive. exact Hch.
Qed.

(** A call returns when the level count is resolved and inside [int], the
    validation passes, the two conversions succeed, and the image and the
    levels already in the texture are non-empty. *)
Lemma create_returns fuel this image mipmapsNum num m1 m2 :
  resolved_count fuel image mipmapsNum = Some num ->
  1 <= num <= INT_MAX ->
  rejects num image = false ->
  convertTo image CV_8UC4 = Ok m1 -> cvtColor m1 CV_BGR2BGRA = Ok m2 ->
  nonempty image -> Forall nonempty (mipmaps this) ->
  exists t',
    create_mipmapped_texture convertTo cvtColor resize fuel this image
                             mipmapsNum = Some (t', Normal).
Proof.
  intros Hres Hnum Hrej H1 H2 Himg Hold.
  destruct (normalized_size _ _ _ H1 H2) as [Hc Hr].
  assert (Hm2 : nonempty m2) by (unfold nonempty in *; lia).
  destruct (build_levels_returns (Z.to_nat num) 0 m2 (cols m2) (rows m2)
              (mipmaps this)) as [ms Hms]; try lia; try assumption;
    try (apply Hm2).
  destruct (build_levels_app _ _ _ _ _ _ _ _ Hms)
    as (new & -> & _ & Hlen & Hhd & _).
  specialize (Hlen eq_refl). specialize (Hhd eq_refl).
  assert (Hm0 : exists m0, nth_error (mipmaps this ++ new) 0 = Some m0
                           /\ nonempty m0).
  { destruct (mipmaps this) as [|x old] eqn:Eold.
    - destruct new as [|y new]; [cbn in Hlen; lia|].
      exists y. split; [reflexivity|].
      rewrite (Hhd y eq_refl). exact Hm2.
    - exists x. split; [reflexivity|]. inversion Hold; assumption. }
  destruct Hm0 as (m0 & Hnth & [Hc0 Hr0]).
  destruct (log2_eps_defined (cols m0)) as [wl Hwl]; [lia|].
  destruct (log2_eps_defined (rows m0)) as [hl Hhl]; [lia|].
  unfold create_mipmapped_texture.
  change (if mipmapsNum =? 0
          then get_max_possible_mipmaps_num fuel (to_uint (cols image))
                                            (to_uint (rows image))
          else Some mipmapsNum)
    with (resolved_count fuel image mipmapsNum).
  rewrite Hres. cbn [mipmaps_num set_mipmaps_num mipmaps].
  change ((num >? 1) && (negb (is_power_of_two (cols image))
                         || negb (is_power_of_two (rows image))))
    with (rejects num image).
  rewrite Hrej, H1, H2, Hms.
  unfold store_logs. cbn [mipmaps set_mipmaps].
  rewrite Hnth, Hwl, Hhl. eexists. reflexivity.
Qed.

(** ** The channel layout of the levels *)


(** ** The sizes of the levels *)

(** Whatever sizes [resize] accepts, each appended level after the first
    is the [halve] of the level before it: lines 145-148. *)
Lemma levels_step fuel this image mipmapsNum t' c :
  create_mipmapped_texture convertTo cvtColor resize fuel this image mipmapsNum
  = Some (t', c) ->
  exists new,
    mipmaps t' = mipmaps this ++ new
    /\ forall j a b,
         nth_error new j = Some a -> nth_error new (S j) = Some b ->
         cols b = halve (cols a) /\ rows b = halve (rows a).
Proof.
  intros Hrun.
  assert (Hnone : mipmaps t' = mipmaps this ->
            exists new,
              mipmaps t' = mipmaps this ++ new
              /\ forall j a b,
                   nth_error new j = Some a -> nth_error new (S j) = Some b ->
                   cols b = halve (cols a) /\ rows b = halve (rows a)).
  { intros E. exists []. rewrite app_nil_r. split; [exact E|].
    intros [|j] a b [=]. }
  destruct (create_cases _ _ _ _ _ _ Hrun) as (num & Hres & Hcase).
  destruct Hcase as [(_ & -> & _) | (_ & [Hcase | [Hcase | Hcase]])].
  - apply Hnone. reflexivity.
  - destruct Hcase as (code & _ & -> & _). apply Hnone. reflexivity.
  - destruct Hcase as (m1 & code & _ & _ & -> & _). apply Hnone. reflexivity.
  - destruct Hcase as (m1 & m2 & ms & c0 & H1 & H2 & Hb & Hend).
    assert (Hms : mipmaps t' = ms).
    { destruct Hend as [(_ & Hlogs) | (_ & -> & _)]; [|reflexivity].
      destruct (store_logs_inv _ _ _ Hlogs) as (-> & _). reflexivity. }
    rewrite Hms.
    destruct (build_levels_dims _ _ _ _ _ _ _ _ Hb ltac:(lia)
                ltac:(intros _; split; reflexivity))
      as (new & -> & Hchain).
    exists new. split; [reflexivity|].
    intros j a b Ha Hb'. exact (halving_chain_halve j _ _ _ a b Hchain Ha Hb').
Qed.

(** C4.  Among the levels a call appends, each level after the first has
    width [max 1 (w / 2)] and height [max 1 (h / 2)] for the width [w] and
    height [h] of the level before it; five levels built from a 16 x 16
    source are 16, 8, 4, 2 and 1 wide and high. *)
Theorem levels_halve fuel this image mipmapsNum t' c :
  create_mipmapped_texture convertTo cvtColor resize fuel this image mipmapsNum
  = Some (t', c) ->
  exists new,
    mipmaps t' = mipmaps this ++ new
    /\ (forall j a b,
          nth_error new j = Some a -> nth_error new (S j) = Some b ->
          cols b = Z.max 1 (cols a / 2) /\ rows b = Z.max 1 (rows a / 2))
    /\ (cols image = 16 -> rows image = 16 -> mipmapsNum = 5 -> c = Normal ->
        map dims new = [(16, 16); (8, 8); (4, 4); (2, 2); (1, 1)]).
Proof.
  intros Hrun.
  assert (Hnone : mipmaps t' = mipmaps this -> c <> Normal ->
            exists new,
              mipmaps t' = mipmaps this ++ new
              /\ (forall j a b,
                    nth_error new j = Some a -> nth_error new (S j) = Some b ->
                    cols b = Z.max 1 (cols a / 2)
                    /\ rows b = Z.max 1 (rows a / 2))
              /\ (cols image = 16 -> rows image = 16 -> mipmapsNum = 5 ->
                  c = Normal ->
                  map dims new = [(16, 16); (8, 8); (4, 4); (2, 2); (1, 1)])).
  { intros E Hc. exists []. rewrite app_nil_r. split; [exact E|].
    split; [intros [|j] a b [=] | intros _ _ _ Hn; contradiction]. }
  destruct (create_cases _ _ _ _ _ _ Hrun) as (num & Hres & Hcase).
  destruct Hcase as [(_ & -> & ->) | (_ & [Hcase | [Hcase | Hcase]])].
  - apply Hnone; [reflexivity | discriminate].
  - destruct Hcase as (code & _ & -> & ->).
    apply Hnone; [reflexivity | discriminate].
  - destruct Hcase as (m1 & code & _ & _ & -> & ->).
    apply Hnone; [reflexivity | discriminate].
  - destruct Hcase as (m1 & m2 & ms & c0 & H1 & H2 & Hb & Hend).
    assert (Hms : mipmaps t' = ms /\ (c = Normal -> c0 = Normal)).
    { destruct Hend as [(-> & Hlogs) | (Hc0 & -> & ->)].
      - destruct (store_logs_inv _ _ _ Hlogs) as (-> & _). auto.
      - auto. }
    destruct Hms as [Hms Hc0]. rewrite Hms.
    destruct (build_levels_dims _ _ _ _ _ _ _ _ Hb ltac:(lia)
                ltac:(intros _; split; reflexivity))
      as (new & -> & Hchain).
    destruct (build_levels_nonempty _ _ _ _ _ _ _ _ Hb ltac:(lia))
      as (new' & Happ' & _ & Hne).
    apply app_inv_head in Happ'. subst new'.
    specialize (Hne eq_refl).
    exists new. split; [reflexivity | split].
    + intros j a b Ha Hb'. exact (halving_chain_step j _ _ _ a b Hchain Hne Ha Hb').
    + intros Hc16 Hr16 H5 Hc. specialize (Hc0 Hc).
      destruct (build_levels_app _ _ _ _ _ _ _ _ Hb)
        as (new' & Happ & _ & Hlen & _).
      apply app_inv_head in Happ. subst new'. specialize (Hlen Hc0).
      assert (num = 5).
      { unfold resolved_count in Hres. rewrite H5 in Hres.
        cbn in Hres. congruence. }
      subst num.
      destruct (normalized_size _ _ _ H1 H2) as [Ec Er].
      rewrite Ec, Hc16, Er, Hr16 in Hchain.
      destruct new as [|l0 [|l1 [|l2 [|l3 [|l4 [|l5 new]]]]]];
        try discriminate Hlen.
      cbn in Hchain. unfold dims. cbn [map].
      destruct Hchain as (-> & -> & -> & -> & -> & -> & -> & -> & -> & -> & _).
      reflexivity.
Qed.

(** ** The number of levels *)


(** Lines 122-128: a resolved count above 1 and a dimension that fails
    [is_power_of_two] end the call with the [runtime_error], before any
    OpenCV operation is called and with no level appended. *)
Lemma validation_throws fuel this image mipmapsNum num :
  resolved_count fuel image mipmapsNum = Some num ->
  1 < num ->
  is_power_of_two (cols image) = false \/ is_power_of_two (rows image) = false ->
  create_mipmapped_texture convertTo cvtColor resize fuel this image mipmapsNum
  = Some (set_mipmaps_num this num,
          Thrown (runtime_error not_power_of_two_msg)).
Proof.
  intros Hres Hnum Hpot. unfold create_mipmapped_texture.
  change (if mipmapsNum =? 0
          then get_max_possible_mipmaps_num fuel (to_uint (cols image))
                                            (to_uint (rows image))
          else Some mipmapsNum)
    with (resolved_count fuel image mipmapsNum).
  rewrite Hres. cbn [mipmaps_num set_mipmaps_num].
  assert (E : (num >? 1) && (negb (is_power_of_two (cols image))
                             || negb (is_power_of_two (rows image))) = true).
  { apply andb_true_iff. split; [apply Z.gtb_lt; exact Hnum|].
    destruct Hpot as [-> | ->]; cbn; [reflexivity | apply orb_true_r]. }
  rewrite E. reflexivity.
Qed.

(** ** The logarithm fields *)

(** C7.  After a call that returns, [widthLog] and [heightLog] are the
    integer parts of [log2 w + 0.0001] and [log2 h + 0.0001] for the width
    [w] and height [h] of [mipmaps[0]] (real logarithm, exact arithmetic);
    on a new texture and a source of width [2^k] and height [2^l] they are
    [k] and [l], so 8 and 6 for a 256 x 64 source. *)
Theorem log2_fields fuel this image mipmapsNum t' :
  create_mipmapped_texture convertTo cvtColor resize fuel this image mipmapsNum
  = Some (t', Normal) ->
  (exists level0,
      nth_error (mipmaps t') 0 = Some level0
      /\ widthLog t'
         = Zfloor (ln (IZR (cols level0)) / ln 2 + 1 / 10000)%R
      /\ heightLog t'
         = Zfloor (ln (IZR (rows level0)) / ln 2 + 1 / 10000)%R)
  /\ (forall k l,
        fresh this -> 0 <= k -> 0 <= l ->
        cols image = 2 ^ k -> rows image = 2 ^ l ->
        widthLog t' = k /\ heightLog t' = l)
  /\ (fresh this -> cols image = 256 -> rows image = 64 ->
      widthLog t' = 8 /\ heightLog t' = 6).
Proof.
  intros Hrun.
  destruct (create_cases _ _ _ _ _ _ Hrun) as (num & _ & Hcase).
  destruct Hcase as [(_ & _ & [=]) | (_ & [Hcase | [Hcase | Hcase]])].
  { destruct Hcase as (code & _ & _ & [=]). }
  { destruct Hcase as (m1 & code & _ & _ & _ & [=]). }
  destruct Hcase as (m1 & m2 & ms & c0 & H1 & H2 & Hb & Hend).
  destruct Hend as [(-> & Hlogs) | (Hc0 & _ & Hc0')];
    [|symmetry in Hc0'; contradiction].
  destruct (store_logs_inv _ _ _ Hlogs) as (Hms & _ & _ & Hfields).
  destruct (Hfields eq_refl) as (m0 & Hm0 & Hw & Hh).
  cbn [mipmaps set_mipmaps] in Hms, Hm0.
  assert (Hpow : forall k l,
            fresh this -> 0 <= k -> 0 <= l ->
            cols image = 2 ^ k -> rows image = 2 ^ l ->
            widthLog t' = k /\ heightLog t' = l).
  { intros k l Hfresh Hk Hl Ec Er.
    destruct (build_levels_app _ _ _ _ _ _ _ _ Hb)
      as (new & -> & _ & _ & Hhd & _).
    rewrite Hfresh in Hm0. cbn [app] in Hm0.
    rewrite (Hhd eq_refl m0 Hm0) in Hw, Hh.
    destruct (normalized_size _ _ _ H1 H2) as [Ec2 Er2].
    rewrite Ec2, Ec, log2_eps_pow2 in Hw by exact Hk.
    rewrite Er2, Er, log2_eps_pow2 in Hh by exact Hl.
    split; congruence. }
  split; [|split; [exact Hpow|]].
  - exists m0. rewrite Hms.
    pose proof (log2_eps_positive _ _ Hw) as Hcpos.
    pose proof (log2_eps_positive _ _ Hh) as Hrpos.
    rewrite (log2_eps_floor _ Hcpos) in Hw.
    rewrite (log2_eps_floor _ Hrpos) in Hh.
    split; [exact Hm0 | split; congruence].
  - intros Hfresh Ec Er. apply (Hpow 8 6); try assumption; lia.
Qed.

(** ** The state after a failed call *)

(** C8, as the code has it.  When a call throws, [widthLog] and
    [heightLog] are as before the call, [mipmaps_num] holds the resolved
    level count, and [mipmaps] is the vector before the call followed by
    the levels appended so far: none when the validation or one of the two
    conversions threw; when [resize] threw, the normalized image and after
    it, one by one, what [resize] returned for [mipmaps[i-1]] in the
    iterations before the failing one, all of them kept.  The exception is
    the [runtime_error] of the validation, or the [cv::Exception] with the
    code that the failing call raised: [convertTo] on the image, [cvtColor]
    on the converted image, or [resize] on the last level appended for the
    size of the next one. *)
Theorem failure_state fuel this image mipmapsNum t' e :
  create_mipmapped_texture convertTo cvtColor resize fuel this image mipmapsNum
  = Some (t', Thrown e) ->
  widthLog t' = widthLog this
  /\ heightLog t' = heightLog this
  /\ resolved_count fuel image mipmapsNum = Some (mipmaps_num t')
  /\ exists partial,
       mipmaps t' = mipmaps this ++ partial
       /\ (length partial < Z.to_nat (mipmaps_num t')
           \/ partial = [])%nat
       /\ (partial = [] <->
           e = runtime_error not_power_of_two_msg
           \/ (exists code, convertTo image CV_8UC4 = Raise code)
           \/ (exists m1 code,
                  convertTo image CV_8UC4 = Ok m1
                  /\ cvtColor m1 CV_BGR2BGRA = Raise code))
       /\ ((e = runtime_error not_power_of_two_msg
            /\ rejects (mipmaps_num t') image = true)
           \/ (rejects (mipmaps_num t') image = false
               /\ exists code,
                    e = cv_Exception code
                    /\ (convertTo image CV_8UC4 = Raise code
                        \/ (exists m1,
                               convertTo image CV_8UC4 = Ok m1
                               /\ cvtColor m1 CV_BGR2BGRA = Raise code)
                        \/ (exists m1 m2 src,
                               convertTo image CV_8UC4 = Ok m1
                               /\ cvtColor m1 CV_BGR2BGRA = Ok m2
                               /\ nth_error partial 0 = Some m2
                               /\ (forall j level,
                                     nth_error partial (S j) = Some level ->
                                     exists prev,
                                       nth_error (mipmaps t') j = Some prev
                                       /\ resize_to resize prev
                                            (halve_iter (cols m2) (S j))
                                            (halve_iter (rows m2) (S j))
                                          = Ok level)
                               /\ nth_error (mipmaps t')
                                            (Nat.pred (length partial))
                                  = Some src
                               /\ resize_to resize src
                                    (halve_iter (cols m2) (length partial))
                                    (halve_iter (rows m2) (length partial))
                                  = Raise code)))).
Proof.
  intros Hrun.
  pose proof (create_mipmaps_num _ _ _ _ _ _ Hrun) as Hnum.
  destruct (create_cases _ _ _ _ _ _ Hrun) as (num & Hres & Hcase).
  assert (Enum : num = mipmaps_num t') by congruence.
  destruct Hcase as [(Hrej & -> & [= ->]) | (Hrej & [Hcase | [Hcase | Hcase]])].
  - split; [reflexivity | split; [reflexivity | split; [exact Hres|]]].
    exists []. rewrite app_nil_r.
    split; [reflexivity | split; [right; reflexivity | split; [split; auto|]]].
    left. split; [reflexivity | exact Hrej].
  - destruct Hcase as (code & H1 & -> & [= ->]).
    split; [reflexivity | split; [reflexivity | split; [exact Hres|]]].
    exists []. rewrite app_nil_r.
    split; [reflexivity | split; [right; reflexivity | split; [split; eauto|]]].
    right. split; [exact Hrej|]. exists code. auto.
  - destruct Hcase as (m1 & code & H1 & H2 & -> & [= ->]).
    split; [reflexivity | split; [reflexivity | split; [exact Hres|]]].
    exists []. rewrite app_nil_r.
    split; [reflexivity
           | split; [right; reflexivity | split; [split; eauto 6|]]].
    right. split; [exact Hrej|]. exists code.
    split; [reflexivity|]. right. left. eauto.
  - destruct Hcase as (m1 & m2 & ms & c0 & H1 & H2 & Hb & Hend).
    destruct Hend as [(-> & Hlogs) | (_ & -> & <-)].
    { destruct (store_logs_inv _ _ _ Hlogs) as (_ & _ & [H | H] & _);
        discriminate. }
    destruct (build_levels_app _ _ _ _ _ _ _ _ Hb)
      as (new & -> & _ & _ & Hhd & Hthrow).
    destruct (Hthrow e eq_refl) as [Hlt Hne]. specialize (Hne eq_refl).
    destruct (build_levels_trace _ _ _ _ _ _ _ _ Hb ltac:(lia))
      as [Hlevels Hthrown].
    destruct (Hthrown e eq_refl) as (_ & code & src & -> & Hsrc & Hraise).
    split; [reflexivity | split; [reflexivity | split; [exact Hres|]]].
    exists new. cbn [mipmaps mipmaps_num set_mipmaps set_mipmaps_num].
    split; [reflexivity | split; [left; exact Hlt | split; [split|]]].
    + intros E. contradiction.
    + intros [[=] | [(code' & H1') | (m1' & code' & H1' & H2')]]; exfalso.
      * congruence.
      * rewrite H1 in H1'. injection H1' as <-. congruence.
    + right. split; [exact Hrej|]. exists code.
      split; [reflexivity|]. right. right.
      exists m1, m2, src.
      split; [exact H1 | split; [exact H2 | split; [|split; [|split]]]].
      * destruct new as [|level0 new']; [contradiction|].
        cbn [nth_error]. f_equal. exact (Hhd eq_refl level0 eq_refl).
      * intros j level Hj.
        destruct (Hlevels (S j) level Hj)
          as [[Hz _] | (_ & prev & Hprev & Hok)]; [lia|].
        exists prev. split; [|exact Hok].
        replace (Z.to_nat (0 + Z.of_nat (S j) - 1)) with j in Hprev by lia.
        exact Hprev.
      * replace (Z.to_nat (0 + Z.of_nat (length new) - 1))
          with (Nat.pred (length new)) in Hsrc by lia.
        exact Hsrc.
      * exact Hraise.
Qed.

(** ** The validation of the dimensions *)

(** The call throws the [runtime_error] only out of the validation. *)
Lemma runtime_error_inv fuel this image mipmapsNum t' msg :
  create_mipmapped_texture convertTo cvtColor resize fuel this image mipmapsNum
  = Some (t', Thrown (runtime_error msg)) ->
  exists num,
    resolved_count fuel image mipmapsNum = Some num
    /\ 1 < num
    /\ (is_power_of_two (cols image) = false
        \/ is_power_of_two (rows image) = false).
Proof.
  intros Hrun.
  destruct (create_cases _ _ _ _ _ _ Hrun) as (num & Hres & Hcase).
  exists num. split; [exact Hres|].
  destruct Hcase as [(Hrej & _ & _) | (_ & [Hcase | [Hcase | Hcase]])].
  - unfold rejects in Hrej. apply andb_true_iff in Hrej.
    destruct Hrej as [Hgt Hor]. apply Z.gtb_lt in Hgt.
    split; [exact Hgt|].
    apply orb_true_iff in Hor.
    destruct Hor as [H | H]; apply negb_true_iff in H; auto.
  - destruct Hcase as (code & _ & _ & [=]).
  - destruct Hcase as (m1 & code & _ & _ & _ & [=]).
  - destruct Hcase as (m1 & m2 & ms & c0 & _ & _ & Hb & Hend).
    destruct Hend as [(-> & Hlogs) | (_ & _ & <-)].
    + destruct (store_logs_inv _ _ _ Hlogs) as (_ & _ & [H | H] & _);
        discriminate.
    + destruct (build_levels_thrown _ _ _ _ _ _ _ _ Hb) as [code [=]].
Qed.

(** C9.  [is_power_of_two 0] is true: the test is [x & (x - 1) == 0],
    which holds for 0 as for every power of two; so the validation of
    [create_mipmapped_texture] does not reject a dimension of 0: for an
    image with a dimension 0 and the other one 0 or a power of two, no
    call ends with the [runtime_error], whatever the level count. *)
Theorem is_power_of_two_accepts_zero :
  is_power_of_two 0 = true
  /\ (forall x, is_power_of_two x = true <-> Z.land x (x - 1) = 0)
  /\ (forall k, 0 <= k -> is_power_of_two (2 ^ k) = true)
  /\ (forall fuel this image mipmapsNum t' msg,
        cols image = 0 /\ is_power_of_two (rows image) = true
        \/ rows image = 0 /\ is_power_of_two (cols image) = true ->
        create_mipmapped_texture convertTo cvtColor resize fuel this image
                                 mipmapsNum
        <> Some (t', Thrown (runtime_error msg))).
Proof.
  split; [reflexivity | split; [exact is_power_of_two_land | split]].
  - exact is_power_of_two_pow2.
  - intros fuel this image mipmapsNum t' msg Hdims Hrun.
    destruct (runtime_error_inv _ _ _ _ _ _ Hrun) as (num & _ & _ & Hpot).
    destruct Hdims as [[E Hp] | [E Hp]]; rewrite E, Hp in Hpot;
      destruct Hpot as [H | H]; discriminate.
Qed.

(** Lines 122-128 on non-empty images: a resolved count above 1 and a
    width or height that is not [2^k] end the call with the
    [runtime_error], the texture left with its levels and the count
    stored. *)
Lemma non_power_of_two_rejected fuel this image mipmapsNum num :
  resolved_count fuel image mipmapsNum = Some num ->
  1 < num ->
  1 <= cols image -> 1 <= rows image ->
  ~ (exists k, 0 <= k /\ cols image = 2 ^ k)
  \/ ~ (exists k, 0 <= k /\ rows image = 2 ^ k) ->
  create_mipmapped_texture convertTo cvtColor resize fuel this image mipmapsNum
  = Some (set_mipmaps_num this num,
          Thrown (runtime_error not_power_of_two_msg)).
Proof.
  intros Hres Hnum Hc Hr Hnot.
  apply validation_throws; [exact Hres | exact Hnum|].
  destruct Hnot as [Hn | Hn]; [left | right].
  - destruct (is_power_of_two (cols image)) eqn:E; [exfalso | reflexivity].
    apply is_power_of_two_iff in E. destruct E as [E | E]; [lia | auto].
  - destruct (is_power_of_two (rows image)) eqn:E; [exfalso | reflexivity].
    apply is_power_of_two_iff in E. destruct E as [E | E]; [lia | auto].
Qed.

(** A request for exactly one level skips the validation: the call does
    not throw the [runtime_error], and it returns on a non-empty image
    when the two conversions succeed. *)
Lemma single_level_skips_validation fuel this image :
  (forall t' msg,
      create_mipmapped_texture convertTo cvtColor resize fuel this image 1
      <> Some (t', Thrown (runtime_error msg)))
  /\ (nonempty image -> Forall nonempty (mipmaps this) ->
      (exists m1 m2, convertTo image CV_8UC4 = Ok m1
                     /\ cvtColor m1 CV_BGR2BGRA = Ok m2) ->
      exists t' level0,
        create_mipmapped_texture convertTo cvtColor resize fuel this image 1
        = Some (t', Normal)
        /\ mipmaps t' = mipmaps this ++ [level0]).
Proof.
  split.
  - intros t' msg Hrun.
    destruct (runtime_error_inv _ _ _ _ _ _ Hrun) as (num & Hres & Hnum & _).
    unfold resolved_count in Hres. cbn in Hres. injection Hres as <-. lia.
  - intros Himg Hold (m1 & m2 & H1 & H2).
    destruct (create_returns fuel this image 1 1 m1 m2) as [t' Hrun];
      try assumption; try reflexivity.
    { unfold INT_MAX. lia. }
    exists t'.
    destruct (create_cases _ _ _ _ _ _ Hrun) as (num & Hres & Hcase).
    unfold resolved_count in Hres. cbn in Hres. injection Hres as <-.
    destruct Hcase as [(_ & _ & [=]) | (_ & [Hcase | [Hcase | Hcase]])].
    + destruct Hcase as (code & _ & _ & [=]).
    + destruct Hcase as (m1' & code & _ & _ & _ & [=]).
    + destruct Hcase as (m1' & m2' & ms & c0 & _ & _ & Hb & Hend).
      destruct Hend as [(-> & Hlogs) | (Hc0 & _ & Hc0')];
        [|symmetry in Hc0'; contradiction].
      destruct (store_logs_inv _ _ _ Hlogs) as (-> & _).
      destruct (build_levels_app _ _ _ _ _ _ _ _ Hb)
        as (new & -> & _ & Hlen & _).
      specialize (Hlen eq_refl).
      destruct new as [|level0 [|? ?]]; try discriminate Hlen.
      exists level0. split; [exact Hrun | reflexivity].
Qed.

(** C3, where the code departs from it.  An empty image (0 x 0) with two
    levels requested has a resolved level count above 1 and a width that
    is no power of two, yet the call does not end with the
    [runtime_error]: the validation lets it through to the conversions,
    and the call returns, is thrown out of by OpenCV, or has no defined
    behaviour. *)
Theorem empty_image_passes_validation fuel this ty d t' c :
  create_mipmapped_texture convertTo cvtColor resize fuel this
                           (mkMat 0 0 ty d) 2 = Some (t', c) ->
  mipmaps_num t' = 2
  /\ ~ (exists k, 0 <= k /\ 0 = 2 ^ k)
  /\ c <> Thrown (runtime_error not_power_of_two_msg)
  /\ (c = Normal \/ c = Undefined
      \/ exists code, c = Thrown (cv_Exception code)).
Proof.
  intros Hrun.
  pose proof (create_mipmaps_num _ _ _ _ _ _ Hrun) as Hnum.
  unfold resolved_count in Hnum. cbn in Hnum. injection Hnum as Hnum.
  split; [symmetry; exact Hnum | split].
  { intros (k & Hk & E).
    assert (0 < 2 ^ k) by (apply Z.pow_pos_nonneg; lia). lia. }
  assert (Hnot : forall msg, c <> Thrown (runtime_error msg)).
  { intros msg ->.
    destruct (runtime_error_inv _ _ _ _ _ _ Hrun) as (num & _ & _ & Hpot).
    cbn in Hpot. destruct Hpot; discriminate. }
  split; [apply Hnot|].
  destruct c as [|e|]; auto.
  right. right. destruct e as [msg|code]; [|eauto].
  exfalso. exact (Hnot msg eq_refl).
Qed.


(** ** Further properties of a call *)

(** Bernoulli's inequality, without division:
    [(a + 1)^e * a >= a^e * (a + e)]. *)
Lemma bernoulli (a : Z) (e : nat) :
  0 <= a ->
  a ^ Z.of_nat e * (a + Z.of_nat e) <= (a + 1) ^ Z.of_nat e * a.
Proof.
  intros Ha. induction e as [|e IH].
  - change (Z.of_nat 0) with 0. rewrite !Z.pow_0_r. lia.
  - rewrite Nat2Z.inj_succ, !Z.pow_succ_r by lia.
    assert (HB : 0 <= a ^ Z.of_nat e) by (apply Z.pow_nonneg; lia).
    revert IH HB.
    generalize (a ^ Z.of_nat e), ((a + 1) ^ Z.of_nat e), (Z.of_nat e),
               (Nat2Z.is_nonneg e).
    intros B A z Hz IH HB. nia.
Qed.

(** Below the exponent, doubling [n^e] stays below [(n + 1)^e]. *)
Lemma double_pow_lt (n e : Z) :
  1 <= n < e -> 2 * n ^ e < (n + 1) ^ e.
Proof.
  intros Hn.
  pose proof (bernoulli n (Z.to_nat e) ltac:(lia)) as HB.
  rewrite Z2Nat.id in HB by lia.
  assert (Hp : 0 < n ^ e) by (apply Z.pow_pos_nonneg; lia).
  revert HB Hp. generalize (n ^ e), ((n + 1) ^ e).
  intros B A HB Hp. nia.
Qed.

(** The integer part of [log2 n + 1/e] is [log2 n] or one more, and it is
    [log2 n] for [n < e]. *)
Lemma log2_scaled_near (n e : Z) :
  1 <= n -> 0 < e ->
  Z.log2 n <= Z.log2 (2 * n ^ e) / e <= Z.log2 n + 1
  /\ (n < e -> Z.log2 (2 * n ^ e) / e = Z.log2 n).
Proof.
  intros Hn He.
  destruct (Z.log2_spec n ltac:(lia)) as [Hlo Hhi].
  pose proof (Z.log2_nonneg n) as Hk.
  set (k := Z.log2 n) in *.
  assert (He0 : 0 <= e) by lia.
  assert (Hpow : 0 < n ^ e) by (apply Z.pow_pos_nonneg; lia).
  assert (Hpos : 0 < 2 * n ^ e) by (apply Z.mul_pos_pos; [lia | exact Hpow]).
  assert (H2k : 0 < 2 ^ k) by (apply Z.pow_pos_nonneg; lia).
  assert (Hlow : 2 ^ (k * e + 1) <= 2 * n ^ e).
  { rewrite Z.pow_add_r, Z.pow_1_r, Z.pow_mul_r by lia.
    pose proof (Z.pow_le_mono_l (2 ^ k) n e ltac:(lia)) as Hm.
    revert Hm. generalize ((2 ^ k) ^ e), (n ^ e). intros; lia. }
  assert (Hup : 2 * n ^ e < 2 ^ (Z.succ k * e + 1)).
  { rewrite Z.pow_add_r, Z.pow_1_r, Z.pow_mul_r by lia.
    pose proof (Z.pow_lt_mono_l n (2 ^ Z.succ k) e He ltac:(lia)) as Hm.
    revert Hm. generalize ((2 ^ Z.succ k) ^ e), (n ^ e). intros; lia. }
  assert (HL1 : k * e + 1 <= Z.log2 (2 * n ^ e)).
  { apply Z.log2_le_pow2; [exact Hpos | exact Hlow]. }
  assert (HL2 : Z.log2 (2 * n ^ e) < Z.succ k * e + 1).
  { apply Z.log2_lt_pow2; [exact Hpos | exact Hup]. }
  assert (Hexact : n < e -> Z.log2 (2 * n ^ e) < Z.succ k * e).
  { intros Hne. apply Z.log2_lt_pow2; [exact Hpos|].
    rewrite Z.pow_mul_r by lia.
    pose proof (double_pow_lt n e ltac:(lia)) as Hd.
    pose proof (Z.pow_le_mono_l (n + 1) (2 ^ Z.succ k) e ltac:(lia)) as Hm.
    revert Hd Hm.
    generalize ((2 ^ Z.succ k) ^ e), ((n + 1) ^ e), (n ^ e). intros; lia. }
  clear Hlow Hup Hpow Hpos.
  revert HL1 HL2 Hexact. generalize (Z.log2 (2 * n ^ e)).
  intros L HL1 HL2 Hexact.
  assert (Hq1 : k <= L / e) by (apply Z.div_le_lower_bound; nia).
  assert (Hq2 : L / e <= k + 1) by (apply Z.div_le_upper_bound; nia).
  split; [lia|].
  intros Hne. specialize (Hexact Hne).
  assert (L / e < k + 1) by (apply Z.div_lt_upper_bound; nia).
  lia.
Qed.

Lemma halve_div_pow2 (c : Z) (j : nat) :
  1 <= c ->
  Z.max 1 (halve c / 2 ^ Z.of_nat j) = Z.max 1 (c / 2 ^ Z.of_nat (S j)).
Proof.
  intros Hc. rewrite Nat2Z.inj_succ, Z.pow_succ_r by lia.
  assert (Hp : 0 < 2 ^ Z.of_nat j) by (apply Z.pow_pos_nonneg; lia).
  rewrite halve_max by exact Hc.
  destruct (Z.eq_dec c 1) as [->|Hne].
  - change (1 / 2) with 0. change (Z.max 1 0) with 1.
    rewrite (Z.div_small 1 (2 * 2 ^ Z.of_nat j)) by lia.
    assert (1 / 2 ^ Z.of_nat j <= 1)
      by (apply Z.div_le_upper_bound; lia).
    lia.
  - assert (1 <= c / 2) by (apply Z.div_le_lower_bound; lia).
    rewrite (Z.max_r 1 (c / 2)) by lia.
    rewrite Z.div_div by lia. reflexivity.
Qed.

(** Level [j] of a chain that starts at a non-empty size. *)
Lemma halving_chain_nth :
  forall j cw ch new m,
    halving_chain cw ch new -> 1 <= cw -> 1 <= ch ->
    nth_error new j = Some m ->
    cols m = Z.max 1 (cw / 2 ^ Z.of_nat j)
    /\ rows m = Z.max 1 (ch / 2 ^ Z.of_nat j).
Proof.
  induction j as [|j IH]; intros cw ch new m Hchain Hcw Hch Hm.
  - destruct new as [|x new]; [discriminate|]. injection Hm as ->.
    cbn [halving_chain] in Hchain. destruct Hchain as (-> & -> & _).
    change (2 ^ Z.of_nat 0) with 1. rewrite !Z.div_1_r. lia.
  - destruct new as [|x new]; [discriminate|].
    cbn [halving_chain] in Hchain. destruct Hchain as (_ & _ & Hchain).
    cbn [nth_error] in Hm.
    assert (Hcw' : 1 <= halve cw)
      by (pose proof (halve_keeps_positive cw); lia).
    assert (Hch' : 1 <= halve ch)
      by (pose proof (halve_keeps_positive ch); lia).
    destruct (IH _ _ _ _ Hchain Hcw' Hch' Hm) as [Ec Er].
    rewrite Ec, Er, !halve_div_pow2 by assumption. auto.
Qed.

(** The source of every level that [resize] made: the element of the
    vector one index before it. *)
Lemma build_levels_sources n :
  forall i image cw ch ms new c,
    build_levels resize n i image cw ch ms = (ms ++ new, c) ->
    0 <= i ->
    forall j level,
      nth_error new j = Some level -> i + Z.of_nat j <> 0 ->
      exists src cw' ch',
        nth_error (ms ++ new) (Z.to_nat (i + Z.of_nat j - 1)) = Some src
        /\ resize src (Mat_new ch' cw' CV_8UC4) (mkSize cw' ch') = Ok level.
Proof.
  induction n as [|n IH]; intros i image cw ch ms new c Hrun Hi j level Hj Hne;
    cbn [build_levels] in Hrun.
  - injection Hrun as Hrun _. rewrite <- (app_nil_r ms) in Hrun at 1.
    apply app_inv_head in Hrun. subst new. destruct j; discriminate.
  - destruct (push_level resize i image cw ch ms) as [ms1|c1] eqn:Ep.
    + destruct (push_level_inl _ _ _ _ _ _ Ep) as (m & -> & _ & Hm1).
      assert (Hfirst : forall new',
                 new = m :: new' -> j = 0%nat ->
                 exists src cw' ch',
                   nth_error (ms ++ new) (Z.to_nat (i + Z.of_nat j - 1))
                   = Some src
                   /\ resize src (Mat_new ch' cw' CV_8UC4) (mkSize cw' ch')
                      = Ok level).
      { intros new' -> ->. injection Hj as ->.
        assert (Hi0 : i <> 0) by (cbn in Hne; lia).
        destruct (Hm1 Hi0) as (prev & Hprev & Hres).
        exists prev, cw, ch. split; [|exact Hres].
        replace (i + Z.of_nat 0 - 1) with (i - 1) by lia.
        rewrite nth_error_app1; [exact Hprev|].
        apply nth_error_Some. rewrite Hprev. discriminate. }
      destruct (i =? INT_MAX).
      * injection Hrun as Hrun _. apply app_inv_head in Hrun. subst new.
        destruct j as [|j]; [exact (Hfirst [] eq_refl eq_refl)|].
        destruct j; discriminate.
      * destruct (build_levels_app _ _ _ _ _ _ _ _ Hrun)
          as (new' & Enew & _).
        assert (E : new = m :: new').
        { rewrite <- app_assoc in Enew.
          apply app_inv_head in Enew. exact Enew. }
        destruct j as [|j]; [exact (Hfirst new' E eq_refl)|].
        subst new. cbn [nth_error] in Hj.
        replace (ms ++ m :: new') with ((ms ++ [m]) ++ new') in Hrun
          by (rewrite <- app_assoc; reflexivity).
        destruct (IH _ _ _ _ _ _ _ Hrun ltac:(lia) j level Hj ltac:(lia))
          as (src & cw' & ch' & Hsrc & Hres).
        exists src, cw', ch'. split; [|exact Hres].
        rewrite <- app_assoc in Hsrc. cbn [app] in Hsrc.
        replace (i + Z.of_nat (S j) - 1) with (i + 1 + Z.of_nat j - 1) by lia.
        exact Hsrc.
    + injection Hrun as Hrun _. rewrite <- (app_nil_r ms) in Hrun at 1.
      apply app_inv_head in Hrun. subst new. destruct j; discriminate.
Qed.

(** An exception out of the loop carries the code [resize] raised. *)
Lemma build_levels_thrown_by_resize n :
  forall i image cw ch ms ms' code,
    build_levels resize n i image cw ch ms = (ms', Thrown (cv_Exception code)) ->
    exists src dst dsize, resize src dst dsize = Raise code.
Proof.
  induction n as [|n IH]; intros i image cw ch ms ms' code Hrun;
    cbn [build_levels] in Hrun.
  - discriminate.
  - destruct (push_level resize i image cw ch ms) as [ms1|c1] eqn:Ep.
    + destruct (i =? INT_MAX); [discriminate|].
      exact (IH _ _ _ _ _ _ _ Hrun).
    + injection Hrun as _ ->. unfold push_level in Ep.
      destruct (i =? 0); [discriminate|].
      destruct (nth_error ms (Z.to_nat (i - 1))) as [prev|]; [|discriminate].
      destruct (resize prev _ _) as [r|code'] eqn:Er; [discriminate|].
      injection Ep as ->. eauto.
Qed.

(** The loop has a defined behaviour when its indices stay inside the
    vector and inside [int]. *)
Lemma build_levels_defined n :
  forall i image cw ch ms ms' c,
    build_levels resize n i image cw ch ms = (ms', c) ->
    0 <= i -> i + Z.of_nat n <= INT_MAX -> i <= Z.of_nat (length ms) ->
    c <> Undefined.
Proof.
  induction n as [|n IH]; intros i image cw ch ms ms' c Hrun Hi Hmax Hlen;
    cbn [build_levels] in Hrun.
  - injection Hrun as _ <-. discriminate.
  - destruct (push_level resize i image cw ch ms) as [ms1|c1] eqn:Ep.
    + destruct (push_level_inl _ _ _ _ _ _ Ep) as (m & -> & _).
      destruct (i =? INT_MAX) eqn:Ei; [apply Z.eqb_eq in Ei; lia|].
      apply (IH _ _ _ _ _ _ _ Hrun); try lia.
      rewrite length_app. cbn [length]. lia.
    + injection Hrun as _ <-. unfold push_level in Ep.
      destruct (i =? 0) eqn:Ei; [discriminate|]. apply Z.eqb_neq in Ei.
      destruct (nth_error ms (Z.to_nat (i - 1))) as [prev|] eqn:En.
      * destruct (resize prev _ _); [discriminate|].
        injection Ep as <-. discriminate.
      * apply nth_error_None in En. lia.
Qed.

(** A call that reaches the loop: the vector it leaves. *)
Lemma create_levels fuel this image mipmapsNum t' c m1 m2 :
  create_mipmapped_texture convertTo cvtColor resize fuel this image mipmapsNum
  = Some (t', c) ->
  rejects (mipmaps_num t') image = false ->
  convertTo image CV_8UC4 = Ok m1 -> cvtColor m1 CV_BGR2BGRA = Ok m2 ->
  exists c0,
    build_levels resize (Z.to_nat (mipmaps_num t')) 0 m2 (cols m2) (rows m2)
                 (mipmaps this) = (mipmaps t', c0)
    /\ (c0 = Normal
        /\ store_logs (set_mipmaps (set_mipmaps_num this (mipmaps_num t'))
                                   (mipmaps t')) = (t', c)
        \/ c0 <> Normal /\ c = c0).
Proof.
  intros Hrun Hrej H1 H2.
  pose proof (create_mipmaps_num _ _ _ _ _ _ Hrun) as Hnum.
  destruct (create_cases _ _ _ _ _ _ Hrun) as (num & Hres & Hcase).
  rewrite Hres in Hnum. injection Hnum as ->.
  destruct Hcase as [(Hr & _) | (_ & [Hcase | [Hcase | Hcase]])].
  - congruence.
  - destruct Hcase as (code & E & _). congruence.
  - destruct Hcase as (m1' & code & E1 & E2 & _).
    rewrite H1 in E1. injection E1 as <-. congruence.
  - destruct Hcase as (m1' & m2' & ms & c0 & E1 & E2 & Hb & Hend).
    rewrite H1 in E1. injection E1 as <-.
    rewrite H2 in E2. injection E2 as <-.
    exists c0.
    destruct Hend as [(-> & Hlogs) | (Hc0 & -> & ->)].
    + destruct (store_logs_inv _ _ _ Hlogs) as (Hms & _).
      cbn [mipmaps set_mipmaps] in Hms. subst ms.
      split; [exact Hb | left; split; [reflexivity | exact Hlogs]].
    + cbn [mipmaps set_mipmaps]. split; [exact Hb | right; auto].
Qed.

(** Every call only appends to the vector; when it fails before the loop
    it appends nothing, and otherwise the loop ran on the normalized
    image. *)
Lemma create_appends fuel this image mipmapsNum t' c :
  create_mipmapped_texture convertTo cvtColor resize fuel this image mipmapsNum
  = Some (t', c) ->
  exists new,
    mipmaps t' = mipmaps this ++ new
    /\ ((new = [] /\ exists e, c = Thrown e)
        \/ exists m1 m2 c0,
             convertTo image CV_8UC4 = Ok m1
             /\ cvtColor m1 CV_BGR2BGRA = Ok m2
             /\ build_levels resize (Z.to_nat (mipmaps_num t')) 0 m2
                             (cols m2) (rows m2) (mipmaps this)
                = (mipmaps this ++ new, c0)
             /\ (c0 = Normal
                 /\ store_logs
                      (set_mipmaps (set_mipmaps_num this (mipmaps_num t'))
                                   (mipmaps this ++ new)) = (t', c)
                 \/ c0 <> Normal /\ c = c0)).
Proof.
  intros Hrun.
  pose proof (create_mipmaps_num _ _ _ _ _ _ Hrun) as Hnum.
  destruct (create_cases _ _ _ _ _ _ Hrun) as (num & Hres & Hcase).
  rewrite Hres in Hnum. injection Hnum as ->.
  destruct Hcase as [(_ & -> & ->) | (_ & [Hcase | [Hcase | Hcase]])].
  - exists []. rewrite app_nil_r. split; [reflexivity | left; eauto].
  - destruct Hcase as (code & _ & -> & ->).
    exists []. rewrite app_nil_r. split; [reflexivity | left; eauto].
  - destruct Hcase as (m1 & code & _ & _ & -> & ->).
    exists []. rewrite app_nil_r. split; [reflexivity | left; eauto].
  - destruct Hcase as (m1 & m2 & ms & c0 & H1 & H2 & Hb & Hend).
    destruct (build_levels_app _ _ _ _ _ _ _ _ Hb) as (new & -> & _).
    assert (Hms : mipmaps t' = mipmaps this ++ new).
    { destruct Hend as [(_ & Hlogs) | (_ & -> & _)]; [|reflexivity].
      destruct (store_logs_inv _ _ _ Hlogs) as (-> & _). reflexivity. }
    exists new. split; [exact Hms | right].
    exists m1, m2, c0. split; [exact H1 | split; [exact H2 | split; [exact Hb|]]].
    destruct Hend as [(-> & Hlogs) | (Hc0 & _ & ->)]; auto.
Qed.

(** X6.  After a call that returns, [mipmaps_num] is the number of levels the
    call appended, and it is at least 1; on a new texture it is the length
    of [mipmaps]. *)
Theorem level_count_matches fuel this image mipmapsNum t' :
  0 <= mipmapsNum ->
  create_mipmapped_texture convertTo cvtColor resize fuel this image mipmapsNum
  = Some (t', Normal) ->
  1 <= mipmaps_num t'
  /\ exists new,
       mipmaps t' = mipmaps this ++ new
       /\ Z.of_nat (length new) = mipmaps_num t'
       /\ (fresh this -> Z.of_nat (length (mipmaps t')) = mipmaps_num t').
Proof.
  intros Hn Hrun.
  pose proof (create_mipmaps_num _ _ _ _ _ _ Hrun) as Hnum.
  pose proof (resolved_count_positive _ _ _ _ Hn Hnum) as Hpos.
  split; [exact Hpos|].
  destruct (create_appends _ _ _ _ _ _ Hrun) as (new & Hms & Hcase).
  exists new. split; [exact Hms|].
  assert (Hlen : Z.of_nat (length new) = mipmaps_num t').
  { destruct Hcase as [(_ & e & [=]) | (m1 & m2 & c0 & _ & _ & Hb & Hend)].
    assert (c0 = Normal) as ->.
    { destruct Hend as [(-> & _) | (Hc0 & Hc)]; [reflexivity|].
      symmetry in Hc. contradiction. }
    destruct (build_levels_app _ _ _ _ _ _ _ _ Hb)
      as (new' & Happ & _ & Hlen & _).
    apply app_inv_head in Happ. subst new'.
    rewrite (Hlen eq_refl). apply Z2Nat.id. lia. }
  split; [exact Hlen|].
  intros Hfresh. rewrite Hms, Hfresh. exact Hlen.
Qed.

(** X7.  The sizes of the appended levels in closed form: when the first one
    (the normalized image) is not empty, level [j] is
    [max 1 (w / 2^j)] wide and [max 1 (h / 2^j)] high; so the levels that
    follow a 1 x 1 level are 1 x 1 again, the level count is not cut. *)
Theorem level_sizes_closed_form fuel this image mipmapsNum t' c :
  create_mipmapped_texture convertTo cvtColor resize fuel this image mipmapsNum
  = Some (t', c) ->
  exists new,
    mipmaps t' = mipmaps this ++ new
    /\ forall level0 j level,
         nth_error new 0 = Some level0 ->
         1 <= cols level0 -> 1 <= rows level0 ->
         nth_error new j = Some level ->
         cols level = Z.max 1 (cols level0 / 2 ^ Z.of_nat j)
         /\ rows level = Z.max 1 (rows level0 / 2 ^ Z.of_nat j).
Proof.
  intros Hrun.
  destruct (create_appends _ _ _ _ _ _ Hrun) as (new & Hms & Hcase).
  exists new. split; [exact Hms|].
  intros level0 j level H0 Hc Hr Hj.
  destruct Hcase as [(-> & _) | (m1 & m2 & c0 & _ & _ & Hb & _)];
    [discriminate|].
  destruct (build_levels_dims _ _ _ _ _ _ _ _ Hb ltac:(lia)
              ltac:(intros _; split; reflexivity))
    as (new' & Happ & Hchain).
  apply app_inv_head in Happ. subst new'.
  assert (E : cols level0 = cols m2 /\ rows level0 = rows m2).
  { destruct new as [|x new]; [discriminate|]. injection H0 as ->.
    cbn [halving_chain] in Hchain. destruct Hchain as (-> & -> & _). auto. }
  destruct E as [Ec Er]. rewrite Ec, Er in *.
  exact (halving_chain_nth j _ _ _ _ Hchain Hc Hr Hj).
Qed.

(** X8.  A call keeps the levels non-empty: when the image and the levels
    already in the texture have at least one row and one column, so has
    every level after the call, however it ends. *)
Theorem levels_stay_nonempty fuel this image mipmapsNum t' c :
  nonempty image -> Forall nonempty (mipmaps this) ->
  create_mipmapped_texture convertTo cvtColor resize fuel this image mipmapsNum
  = Some (t', c) ->
  Forall nonempty (mipmaps t').
Proof.
  intros Himg Hold Hrun.
  destruct (create_appends _ _ _ _ _ _ Hrun) as (new & Hms & Hcase).
  rewrite Hms. apply Forall_app. split; [exact Hold|].
  destruct Hcase as [(-> & _) | (m1 & m2 & c0 & H1 & H2 & Hb & _)];
    [constructor|].
  destruct (normalized_size _ _ _ H1 H2) as [Ec Er].
  destruct Himg as [Hc Hr].
  destruct (build_levels_dims _ _ _ _ _ _ _ _ Hb ltac:(lia)
              ltac:(intros _; split; reflexivity))
    as (new' & Happ & Hchain).
  apply app_inv_head in Happ. subst new'.
  apply Forall_forall. intros m Hin.
  destruct (In_nth_error _ _ Hin) as [j Hj].
  destruct (halving_chain_nth j _ _ _ _ Hchain ltac:(lia) ltac:(lia) Hj)
    as [Hmc Hmr].
  unfold nonempty. lia.
Qed.

(** X9.  A call has a defined behaviour (no index outside [mipmaps], no
    overflow of the loop counter, no logarithm of 0) when the level count
    is between 1 and [INT_MAX] and the image and the levels already in the
    texture are not empty. *)
Theorem no_undefined_behaviour fuel this image mipmapsNum t' c :
  nonempty image -> Forall nonempty (mipmaps this) ->
  create_mipmapped_texture convertTo cvtColor resize fuel this image mipmapsNum
  = Some (t', c) ->
  1 <= mipmaps_num t' <= INT_MAX ->
  c <> Undefined.
Proof.
  intros Himg Hold Hrun Hnum Hc. subst c.
  destruct (create_appends _ _ _ _ _ _ Hrun) as (new & Hms & Hcase).
  destruct Hcase as [(_ & e & [=]) | (m1 & m2 & c0 & H1 & H2 & Hb & Hend)].
  assert (Hdef : c0 <> Undefined).
  { apply (build_levels_defined _ _ _ _ _ _ _ _ Hb); lia. }
  destruct Hend as [(-> & Hlogs) | (_ & Hc)]; [|congruence].
  destruct (build_levels_app _ _ _ _ _ _ _ _ Hb)
    as (new' & Happ & _ & Hlen & Hhd & _).
  apply app_inv_head in Happ. subst new'.
  specialize (Hlen eq_refl). specialize (Hhd eq_refl).
  destruct (normalized_size _ _ _ H1 H2) as [Ec Er].
  assert (Hm0 : exists m0, nth_error (mipmaps this ++ new) 0 = Some m0
                           /\ nonempty m0).
  { destruct (mipmaps this) as [|x old].
    - destruct new as [|y new]; [cbn in Hlen; lia|].
      exists y. split; [reflexivity|].
      rewrite (Hhd y eq_refl). unfold nonempty in *. lia.
    - exists x. split; [reflexivity|]. inversion Hold; assumption. }
  destruct Hm0 as (m0 & Hnth & [Hc0 Hr0]).
  unfold store_logs in Hlogs. cbn [mipmaps set_mipmaps] in Hlogs.
  rewrite Hnth in Hlogs.
  destruct (log2_eps_defined (cols m0)) as [wl Hwl]; [lia|].
  destruct (log2_eps_defined (rows m0)) as [hl Hhl]; [lia|].
  rewrite Hwl, Hhl in Hlogs. discriminate.
Qed.

(** X10.  Every level a call appends after its first one is the output of
    [resize], asked for that level's size, on the element one index before
    it in [mipmaps]; on a new texture that is the level before. *)
Theorem levels_resized_from_previous fuel this image mipmapsNum t' c :
  create_mipmapped_texture convertTo cvtColor resize fuel this image mipmapsNum
  = Some (t', c) ->
  exists new,
    mipmaps t' = mipmaps this ++ new
    /\ forall j level,
         nth_error new (S j) = Some level ->
         exists src,
           nth_error (mipmaps t') j = Some src
           /\ resize src (Mat_new (rows level) (cols level) CV_8UC4)
                     (mkSize (cols level) (rows level)) = Ok level
           /\ (fresh this -> nth_error new j = Some src).
Proof.
  intros Hrun.
  destruct (create_appends _ _ _ _ _ _ Hrun) as (new & Hms & Hcase).
  exists new. split; [exact Hms|].
  intros j level Hj.
  destruct Hcase as [(-> & _) | (m1 & m2 & c0 & _ & _ & Hb & _)];
    [discriminate|].
  destruct (build_levels_sources _ _ _ _ _ _ _ _ Hb ltac:(lia) (S j) level Hj
              ltac:(lia)) as (src & cw & ch & Hsrc & Hres).
  replace (Z.to_nat (0 + Z.of_nat (S j) - 1)) with j in Hsrc by lia.
  destruct (resize_size _ _ _ _ Hres) as [Ec Er].
  cbn [width height] in Ec, Er. subst cw ch.
  exists src. rewrite Hms. split; [exact Hsrc | split; [exact Hres|]].
  intros Hfresh. rewrite Hfresh in Hsrc. exact Hsrc.
Qed.

(** X11.  A second call on a texture that already holds levels appends to them,
    and it keeps reading [mipmaps[0]] and [mipmaps[i-1]] of the whole
    vector: after it returns, the logarithm fields are those of the old
    first level, not of the new image, and the second level it appended was
    resized from the old first level. *)
Theorem second_call_reads_old_levels fuel this image mipmapsNum t' old0 rest :
  mipmaps this = old0 :: rest ->
  create_mipmapped_texture convertTo cvtColor resize fuel this image mipmapsNum
  = Some (t', Normal) ->
  nth_error (mipmaps t') 0 = Some old0
  /\ log2_eps (cols old0) = Some (widthLog t')
  /\ log2_eps (rows old0) = Some (heightLog t')
  /\ forall level,
       nth_error (mipmaps t') (S (length (mipmaps this))) = Some level ->
       exists dst dsize, resize old0 dst dsize = Ok level.
Proof.
  intros Hold Hrun.
  destruct (create_appends _ _ _ _ _ _ Hrun) as (new & Hms & Hcase).
  destruct Hcase as [(_ & e & [=]) | (m1 & m2 & c0 & _ & _ & Hb & Hend)].
  destruct Hend as [(-> & Hlogs) | (Hc0 & Hc)];
    [|symmetry in Hc; contradiction].
  destruct (store_logs_inv _ _ _ Hlogs) as (_ & _ & _ & Hm0).
  destruct (Hm0 eq_refl) as (m0 & Hnth & Hwl & Hhl).
  cbn [mipmaps set_mipmaps] in Hnth.
  rewrite Hold in Hnth. cbn in Hnth.
  assert (m0 = old0) as -> by congruence.
  split; [rewrite Hms, Hold; reflexivity|].
  split; [exact Hwl | split; [exact Hhl|]].
  intros level Hlevel.
  rewrite Hms in Hlevel.
  rewrite nth_error_app2 in Hlevel by lia.
  replace (S (length (mipmaps this)) - length (mipmaps this))%nat with 1%nat
    in Hlevel by lia.
  destruct (build_levels_sources _ _ _ _ _ _ _ _ Hb ltac:(lia) 1%nat level
              Hlevel ltac:(lia)) as (src & cw & ch & Hsrc & Hres).
  change (Z.to_nat (0 + Z.of_nat 1 - 1)) with 0%nat in Hsrc.
  rewrite Hold in Hsrc. cbn in Hsrc.
  assert (src = old0) as -> by congruence.
  eauto.
Qed.

(** X12.  The [runtime_error] is thrown exactly when the resolved level count is
    above 1 and a dimension fails [is_power_of_two]; its message is the
    fixed one and only [mipmaps_num] has changed.  For an image of width
    and height at least 1: exactly when more than one level is asked for
    and a dimension is no power of two. *)
Theorem runtime_error_exactly_when fuel this image mipmapsNum t' c :
  create_mipmapped_texture convertTo cvtColor resize fuel this image mipmapsNum
  = Some (t', c) ->
  ((exists msg, c = Thrown (runtime_error msg))
   <-> 1 < mipmaps_num t'
       /\ (is_power_of_two (cols image) = false
           \/ is_power_of_two (rows image) = false))
  /\ (forall msg,
        c = Thrown (runtime_error msg) ->
        msg = not_power_of_two_msg
        /\ t' = set_mipmaps_num this (mipmaps_num t'))
  /\ (1 <= cols image -> 1 <= rows image ->
      ((exists msg, c = Thrown (runtime_error msg))
       <-> 1 < mipmaps_num t'
           /\ ~ ((exists k, 0 <= k /\ cols image = 2 ^ k)
                 /\ (exists l, 0 <= l /\ rows image = 2 ^ l)))).
Proof.
  intros Hrun.
  pose proof (create_mipmaps_num _ _ _ _ _ _ Hrun) as Hnum.
  assert (Hiff : (exists msg, c = Thrown (runtime_error msg))
                 <-> rejects (mipmaps_num t') image = true).
  { destruct (create_cases _ _ _ _ _ _ Hrun) as (num & Hres & Hcase).
    rewrite Hres in Hnum. injection Hnum as ->.
    destruct Hcase as [(Hrej & _ & ->) | (Hrej & Hcase)].
    - split; [intros _; exact Hrej | eauto].
    - split; [|rewrite Hrej; discriminate].
      intros [msg ->]. exfalso.
      destruct Hcase as [(code & _ & _ & [=])
                        | [(m1 & code & _ & _ & _ & [=])
                          | (m1 & m2 & ms & c0 & _ & _ & Hb & Hend)]].
      destruct Hend as [(_ & Hlogs) | (_ & _ & <-)].
      + destruct (store_logs_inv _ _ _ Hlogs) as (_ & _ & [[=] | [=]] & _).
      + destruct (build_levels_thrown _ _ _ _ _ _ _ _ Hb) as [code [=]]. }
  assert (Hrej : rejects (mipmaps_num t') image = true
                 <-> 1 < mipmaps_num t'
                     /\ (is_power_of_two (cols image) = false
                         \/ is_power_of_two (rows image) = false)).
  { unfold rejects. rewrite andb_true_iff, orb_true_iff, !negb_true_iff.
    rewrite Z.gtb_lt. tauto. }
  split; [rewrite Hiff; exact Hrej|].
  split.
  - intros msg ->.
    destruct (create_cases _ _ _ _ _ _ Hrun) as (num & Hres & Hcase).
    rewrite Hres in Hnum. injection Hnum as ->.
    destruct Hcase as [(_ & -> & [= ->]) | (Hno & _)].
    + split; reflexivity.
    + exfalso. destruct Hiff as [Hyes _].
      rewrite Hyes in Hno by eauto. discriminate.
  - intros Hc Hr. rewrite Hiff, Hrej.
    assert (Hpow : forall x, 1 <= x ->
              (is_power_of_two x = false
               <-> ~ (exists k, 0 <= k /\ x = 2 ^ k))).
    { intros x Hx. rewrite <- not_true_iff_false, is_power_of_two_iff.
      split; intros H; [tauto|].
      intros [H0 | Hk]; [lia | tauto]. }
    rewrite (Hpow _ Hc), (Hpow _ Hr).
    destruct (is_power_of_two (cols image)) eqn:Ecol;
      destruct (is_power_of_two (rows image)) eqn:Erow;
      try (apply not_true_iff_false in Ecol; apply (Hpow _ Hc) in Ecol);
      try (apply not_true_iff_false in Erow; apply (Hpow _ Hr) in Erow);
      try (apply is_power_of_two_iff in Ecol;
           destruct Ecol as [Ecol | Ecol]; [lia|]);
      try (apply is_power_of_two_iff in Erow;
           destruct Erow as [Erow | Erow]; [lia|]);
      tauto.
Qed.

(** X13.  A call for one level never calls [resize] and never throws the
    [runtime_error], whatever the size of the image: it stores the count 1;
    when it returns it has appended the normalized image and nothing else;
    when it throws, [mipmaps] is as before. *)
Theorem single_level_build fuel this image t' c :
  create_mipmapped_texture convertTo cvtColor resize fuel this image 1
  = Some (t', c) ->
  mipmaps_num t' = 1
  /\ (forall msg, c <> Thrown (runtime_error msg))
  /\ (forall resize',
        create_mipmapped_texture convertTo cvtColor resize' fuel this image 1
        = Some (t', c))
  /\ (c = Normal ->
      exists m1 level0,
        convertTo image CV_8UC4 = Ok m1
        /\ cvtColor m1 CV_BGR2BGRA = Ok level0
        /\ mipmaps t' = mipmaps this ++ [level0])
  /\ (forall e, c = Thrown e -> mipmaps t' = mipmaps this).
Proof.
  intros Hrun.
  assert (Hind : forall resize',
            create_mipmapped_texture convertTo cvtColor resize' fuel this
                                     image 1
            = create_mipmapped_texture convertTo cvtColor resize fuel this
                                       image 1).
  { intros resize'. unfold create_mipmapped_texture.
    change (1 =? 0) with false. cbn iota.
    destruct (_ && _); [reflexivity|].
    destruct (convertTo image CV_8UC4) as [m1|code]; [|reflexivity].
    destruct (cvtColor m1 CV_BGR2BGRA) as [m2|code]; [|reflexivity].
    reflexivity. }
  assert (Hkeep : forall resize', create_mipmapped_texture convertTo cvtColor
                    resize' fuel this image 1 = Some (t', c)).
  { intros resize'. rewrite Hind. exact Hrun. }
  clear Hind.
  unfold create_mipmapped_texture in Hrun.
  change (1 =? 0) with false in Hrun. cbn iota in Hrun.
  cbn [mipmaps_num set_mipmaps_num] in Hrun.
  change (1 >? 1) with false in Hrun.
  cbn [andb] in Hrun. change (Z.to_nat 1) with 1%nat in Hrun.
  destruct (convertTo image CV_8UC4) as [m1|code] eqn:E1.
  2:{ injection Hrun as <- <-. cbn [mipmaps mipmaps_num set_mipmaps_num].
      repeat split; try discriminate; try exact Hkeep. }
  destruct (cvtColor m1 CV_BGR2BGRA) as [m2|code] eqn:E2.
  2:{ injection Hrun as <- <-. cbn [mipmaps mipmaps_num set_mipmaps_num].
      repeat split; try discriminate; try exact Hkeep. }
  cbn [build_levels push_level Z.eqb] in Hrun.
  change (0 =? INT_MAX) with false in Hrun. cbn iota in Hrun.
  injection Hrun as Hlogs.
  destruct (store_logs_inv _ _ _ Hlogs) as (Hms & Hnum & Hc & _).
  cbn [mipmaps mipmaps_num set_mipmaps set_mipmaps_num] in Hms, Hnum.
  split; [exact Hnum|].
  split; [intros msg ->; destruct Hc; discriminate|].
  split; [exact Hkeep|].
  split.
  - intros _. exists m1, m2.
    split; [reflexivity | split; [exact E2 | exact Hms]].
  - intros e ->. destruct Hc; discriminate.
Qed.

Lemma create_fuel_le fuel fuel' this image mipmapsNum r :
  (fuel <= fuel')%nat ->
  create_mipmapped_texture convertTo cvtColor resize fuel this image
                           mipmapsNum = Some r ->
  create_mipmapped_texture convertTo cvtColor resize fuel' this image
                           mipmapsNum = Some r.
Proof.
  intros Hle Hrun. induction Hle as [|fuel' _ IH]; [exact Hrun|].
  apply create_more_fuel. exact IH.
Qed.

(** X14.  A call ends exactly when a level count is given or the image has a
    non-zero dimension: with [mipmapsNum = 0] on an empty image the loop of
    [get_max_possible_mipmaps_num] runs for ever.  When it ends, 32
    iterations of that loop were enough, and the outcome is the same for
    every bound on the iterations that lets it end. *)
Theorem create_mipmapped_texture_ends_iff this image mipmapsNum :
  ((exists fuel r,
       create_mipmapped_texture convertTo cvtColor resize fuel this image
                                mipmapsNum = Some r)
   <-> mipmapsNum <> 0
       \/ 1 <= Z.max (to_uint (cols image)) (to_uint (rows image)))
  /\ (forall fuel r,
        create_mipmapped_texture convertTo cvtColor resize fuel this image
                                 mipmapsNum = Some r ->
        create_mipmapped_texture convertTo cvtColor resize 32 this image
                                 mipmapsNum = Some r)
  /\ (forall fuel fuel' r r',
        create_mipmapped_texture convertTo cvtColor resize fuel this image
                                 mipmapsNum = Some r ->
        create_mipmapped_texture convertTo cvtColor resize fuel' this image
                                 mipmapsNum = Some r' ->
        r = r').
Proof.
  assert (Hsame : forall fuel fuel' r r',
            create_mipmapped_texture convertTo cvtColor resize fuel this image
                                     mipmapsNum = Some r ->
            create_mipmapped_texture convertTo cvtColor resize fuel' this
                                     image mipmapsNum = Some r' ->
            r = r').
  { intros fuel fuel' r r' H1 H2.
    pose proof (create_fuel_le fuel (Nat.max fuel fuel') _ _ _ _
                  (Nat.le_max_l _ _) H1) as H1'.
    pose proof (create_fuel_le fuel' (Nat.max fuel fuel') _ _ _ _
                  (Nat.le_max_r _ _) H2) as H2'.
    congruence. }
  assert (Hends : forall fuel r,
            create_mipmapped_texture convertTo cvtColor resize fuel this image
                                     mipmapsNum = Some r ->
            mipmapsNum <> 0
            \/ 1 <= Z.max (to_uint (cols image)) (to_uint (rows image))).
  { intros fuel r Hrun.
    destruct (Z.eq_dec mipmapsNum 0) as [-> | Hne]; [right | left; exact Hne].
    pose proof (to_uint_range (cols image)).
    pose proof (to_uint_range (rows image)).
    destruct (Z.eq_dec (Z.max (to_uint (cols image)) (to_uint (rows image))) 0)
      as [E | E]; [exfalso | lia].
    unfold create_mipmapped_texture in Hrun. cbn [Z.eqb] in Hrun.
    unfold get_max_possible_mipmaps_num in Hrun. rewrite E in Hrun.
    cbn [Z.eqb] in Hrun. rewrite mipmaps_num_loop_zero in Hrun.
    discriminate. }
  split; [split|split; [|exact Hsame]].
  - intros (fuel & r & Hrun). exact (Hends _ _ Hrun).
  - intros Hcount.
    destruct (create_ends 32 this image mipmapsNum) as (t' & c & Hrun).
    { destruct Hcount as [H | H]; [left; exact H | right].
      split; [apply Nat.le_refl | exact H]. }
    exists 32%nat, (t', c). exact Hrun.
  - intros fuel r Hrun.
    destruct (create_ends 32 this image mipmapsNum) as (t' & c & Hrun32).
    { destruct (Hends _ _ Hrun) as [H | H]; [left; exact H | right].
      split; [apply Nat.le_refl | exact H]. }
    rewrite Hrun32. f_equal. exact (Hsame _ _ _ _ Hrun32 Hrun).
Qed.


Lemma div_pow2_last (c L : Z) :
  0 <= L -> 1 <= c < 2 ^ (L + 1) -> Z.max 1 (c / 2 ^ L) = 1.
Proof.
  intros HL Hc.
  assert (H2 : 0 < 2 ^ L) by (apply Z.pow_pos_nonneg; lia).
  rewrite Z.pow_add_r, Z.pow_1_r in Hc by lia.
  assert (c / 2 ^ L < 2) by (apply Z.div_lt_upper_bound; lia).
  lia.
Qed.

Lemma div_pow2_before (c j L : Z) :
  0 <= j < L -> 2 ^ L <= c -> 2 <= c / 2 ^ j.
Proof.
  intros Hj Hc.
  assert (H2 : 0 < 2 ^ j) by (apply Z.pow_pos_nonneg; lia).
  apply Z.div_le_lower_bound; [exact H2|].
  pose proof (Z.pow_le_mono_r 2 (j + 1) L ltac:(lia) ltac:(lia)) as Hm.
  rewrite Z.pow_add_r, Z.pow_1_r in Hm by lia. lia.
Qed.

(** What a call that returns on a new texture has stored: the levels, in
    number [mipmaps_num], are a halving chain from the size of the image,
    which has at least one row and one column. *)
Lemma fresh_build_inv fuel this image mipmapsNum t' :
  fresh this ->
  create_mipmapped_texture convertTo cvtColor resize fuel this image mipmapsNum
  = Some (t', Normal) ->
  1 <= cols image /\ 1 <= rows image
  /\ length (mipmaps t') = Z.to_nat (mipmaps_num t')
  /\ halving_chain (cols image) (rows image) (mipmaps t')
  /\ log2_eps (cols image) = Some (widthLog t')
  /\ log2_eps (rows image) = Some (heightLog t')
  /\ rejects (mipmaps_num t') image = false.
Proof.
  intros Hfresh Hrun.
  pose proof (create_mipmaps_num _ _ _ _ _ _ Hrun) as Hnum.
  assert (Hrej : rejects (mipmaps_num t') image = false).
  { destruct (create_cases _ _ _ _ _ _ Hrun) as (num & Hres & Hcase).
    rewrite Hres in Hnum. injection Hnum as ->.
    destruct Hcase as [(_ & _ & [=]) | (Hrej & _)]. exact Hrej. }
  destruct (create_appends _ _ _ _ _ _ Hrun) as (new & Hms & Hcase).
  rewrite Hfresh in Hms. cbn [app] in Hms.
  destruct Hcase as [(_ & e & [=]) | (m1 & m2 & c0 & H1 & H2 & Hb & Hend)].
  destruct Hend as [(-> & Hlogs) | (Hc0 & Hc)];
    [|symmetry in Hc; contradiction].
  rewrite Hfresh in Hb, Hlogs. cbn [app] in Hb, Hlogs.
  destruct (normalized_size _ _ _ H1 H2) as [Ec Er].
  destruct (build_levels_app _ _ _ _ _ _ _ _ Hb)
    as (new' & Happ & _ & Hlen & Hhd & _).
  cbn [app] in Happ. subst new'.
  specialize (Hlen eq_refl). specialize (Hhd eq_refl).
  destruct (build_levels_dims _ _ _ _ _ _ _ _ Hb ltac:(lia)
              ltac:(intros _; split; reflexivity))
    as (new' & Happ & Hchain).
  cbn [app] in Happ. subst new'.
  destruct (store_logs_inv _ _ _ Hlogs) as (_ & _ & _ & Hm0).
  destruct (Hm0 eq_refl) as (m0 & Hnth & Hwl & Hhl).
  cbn [mipmaps set_mipmaps] in Hnth.
  rewrite (Hhd _ Hnth) in Hwl, Hhl.
  rewrite Ec in Hwl. rewrite Er in Hhl.
  rewrite Ec, Er in Hchain.
  rewrite Hms.
  split; [exact (log2_eps_positive _ _ Hwl)|].
  split; [exact (log2_eps_positive _ _ Hhl)|].
  auto.
Qed.

(** X16.  A build with the level count left to the method, on a new texture:
    when it returns, the last level is 1 x 1 and no level before it is:
    the pyramid is complete and has no level to spare. *)
Theorem auto_pyramid_ends_at_1x1 fuel this image t' :
  fresh this ->
  cols image <= INT_MAX -> rows image <= INT_MAX ->
  create_mipmapped_texture convertTo cvtColor resize fuel this image 0
  = Some (t', Normal) ->
  (exists last,
      nth_error (mipmaps t') (Nat.pred (length (mipmaps t'))) = Some last
      /\ cols last = 1 /\ rows last = 1)
  /\ forall j level,
       nth_error (mipmaps t') j = Some level ->
       (S j < length (mipmaps t'))%nat ->
       2 <= Z.max (cols level) (rows level).
Proof.
  intros Hfresh Hcmax Hrmax Hrun.
  pose proof (create_mipmaps_num _ _ _ _ _ _ Hrun) as Hnum.
  destruct (fresh_build_inv _ _ _ _ _ Hfresh Hrun)
    as (Hc & Hr & Hlen & Hchain & _).
  unfold resolved_count in Hnum. cbn [Z.eqb] in Hnum.
  unfold INT_MAX in Hcmax, Hrmax.
  assert (Hcu : 0 <= cols image < UINT_MOD) by (unfold UINT_MOD; lia).
  assert (Hru : 0 <= rows image < UINT_MOD) by (unfold UINT_MOD; lia).
  rewrite !to_uint_small in Hnum by assumption.
  destruct (get_max_possible_mipmaps_num_positive _ _ _ _ Hcu Hru Hnum)
    as [Hmax HL].
  pose proof (Z.log2_nonneg (Z.max (cols image) (rows image))) as HL0.
  destruct (Z.log2_spec (Z.max (cols image) (rows image)) ltac:(lia))
    as [Hlo Hhi].
  revert HL HL0 Hlo Hhi.
  generalize (Z.log2 (Z.max (cols image) (rows image))).
  intros L HL HL0 Hlo Hhi.
  rewrite HL in Hlen.
  assert (Hpred : Nat.pred (length (mipmaps t')) = Z.to_nat L) by lia.
  split.
  - destruct (nth_error (mipmaps t') (Nat.pred (length (mipmaps t'))))
      as [last|] eqn:Elast.
    2:{ apply nth_error_None in Elast. lia. }
    exists last. split; [reflexivity|].
    destruct (halving_chain_nth _ _ _ _ _ Hchain Hc Hr Elast) as [-> ->].
    rewrite Hpred, Z2Nat.id by lia.
    replace (Z.succ L) with (L + 1) in Hhi by lia.
    split; apply div_pow2_last; lia.
  - intros j level Hj Hlt.
    destruct (halving_chain_nth _ _ _ _ _ Hchain Hc Hr Hj) as [-> ->].
    assert (Hjl : 0 <= Z.of_nat j < L) by lia.
    destruct (Z.max_spec (cols image) (rows image)) as [[_ E] | [_ E]];
      rewrite E in Hlo.
    + pose proof (div_pow2_before _ _ _ Hjl Hlo). lia.
    + pose proof (div_pow2_before _ _ _ Hjl Hlo). lia.
Qed.

(** X17.  After a build of more than one level that returns on a new texture,
    the logarithm fields are exact: the image is [2^widthLog] wide and
    [2^heightLog] high.  When the level count was left to the method, it is
    the larger of the two fields plus 1. *)
Theorem log_fields_give_size_and_count fuel this image mipmapsNum t' :
  fresh this ->
  cols image <= INT_MAX -> rows image <= INT_MAX ->
  create_mipmapped_texture convertTo cvtColor resize fuel this image mipmapsNum
  = Some (t', Normal) ->
  (1 < mipmaps_num t' \/ mipmapsNum = 0 ->
   cols image = 2 ^ widthLog t' /\ rows image = 2 ^ heightLog t')
  /\ (mipmapsNum = 0 ->
      mipmaps_num t' = Z.max (widthLog t') (heightLog t') + 1).
Proof.
  intros Hfresh Hcmax Hrmax Hrun.
  pose proof (create_mipmaps_num _ _ _ _ _ _ Hrun) as Hnum.
  destruct (fresh_build_inv _ _ _ _ _ Hfresh Hrun)
    as (Hc & Hr & _ & _ & Hwl & Hhl & Hrej).
  assert (Hauto : mipmapsNum = 0 ->
            mipmaps_num t' = Z.log2 (Z.max (cols image) (rows image)) + 1).
  { intros ->. unfold resolved_count in Hnum. cbn [Z.eqb] in Hnum.
    unfold INT_MAX in Hcmax, Hrmax.
    assert (Hcu : 0 <= cols image < UINT_MOD) by (unfold UINT_MOD; lia).
    assert (Hru : 0 <= rows image < UINT_MOD) by (unfold UINT_MOD; lia).
    rewrite !to_uint_small in Hnum by assumption.
    apply (get_max_possible_mipmaps_num_positive _ _ _ _ Hcu Hru Hnum). }
  assert (Hpow : 1 < mipmaps_num t' \/ mipmapsNum = 0 ->
            cols image = 2 ^ Z.log2 (cols image)
            /\ rows image = 2 ^ Z.log2 (rows image)).
  { intros Hcount.
    destruct (Z_lt_le_dec 1 (mipmaps_num t')) as [Hgt | Hle].
    - unfold rejects in Hrej. apply andb_false_iff in Hrej.
      destruct Hrej as [Hrej | Hrej];
        [rewrite Z.gtb_ltb in Hrej; apply Z.ltb_ge in Hrej; lia|].
      apply orb_false_iff in Hrej. destruct Hrej as [Pc Pr].
      apply negb_false_iff in Pc, Pr.
      split; apply is_power_of_two_positive; (lia || assumption).
    - destruct Hcount as [Hgt | E0]; [lia|].
      specialize (Hauto E0).
      pose proof (Z.log2_nonneg (Z.max (cols image) (rows image))) as HL0.
      assert (HL : Z.log2 (Z.max (cols image) (rows image)) = 0) by lia.
      destruct (Z.log2_spec (Z.max (cols image) (rows image)) ltac:(lia))
        as [_ Hhi].
      rewrite HL in Hhi. change (2 ^ Z.succ 0) with 2 in Hhi.
      assert (cols image = 1) as -> by lia.
      assert (rows image = 1) as -> by lia.
      split; reflexivity. }
  assert (Hlogs : 1 < mipmaps_num t' \/ mipmapsNum = 0 ->
            widthLog t' = Z.log2 (cols image)
            /\ heightLog t' = Z.log2 (rows image)).
  { intros Hcount. destruct (Hpow Hcount) as [Pc Pr].
    pose proof (log2_eps_pow2 _ (Z.log2_nonneg (cols image))) as Lc.
    pose proof (log2_eps_pow2 _ (Z.log2_nonneg (rows image))) as Lr.
    rewrite <- Pc in Lc. rewrite <- Pr in Lr.
    split; congruence. }
  split.
  - intros Hcount. destruct (Hlogs Hcount) as [-> ->]. exact (Hpow Hcount).
  - intros E0. destruct (Hlogs (or_intror E0)) as [-> ->].
    rewrite (Hauto E0). f_equal.
    destruct (Z.max_spec (cols image) (rows image)) as [[Hlt ->] | [Hle ->]].
    + pose proof (Z.log2_le_mono (cols image) (rows image) ltac:(lia)). lia.
    + pose proof (Z.log2_le_mono (rows image) (cols image) Hle). lia.
Qed.

Lemma log2_eps_near (n l : Z) :
  log2_eps n = Some l ->
  1 <= n /\ Z.log2 n <= l <= Z.log2 n + 1 /\ (n < 10000 -> l = Z.log2 n).
Proof.
  intros Hl. pose proof (log2_eps_positive _ _ Hl) as Hn.
  unfold log2_eps in Hl.
  destruct (n <? 1) eqn:E; [apply Z.ltb_lt in E; lia|].
  assert (El : Z.log2 (2 * n ^ 10000) / 10000 = l) by congruence.
  clear Hl.
  assert (He : 0 < 10000) by reflexivity.
  destruct (log2_scaled_near n 10000 Hn He) as [Hnear Hexact].
  revert El Hnear Hexact. generalize (Z.log2 (2 * n ^ 10000) / 10000).
  intros q -> Hnear Hexact. auto.
Qed.

(** X18.  The logarithm fields against the integer logarithm: after a call that
    returns, each field is [floor (log2 n)] or one more, for the width and
    the height [n] of [mipmaps[0]], and it is [floor (log2 n)] for every
    [n] below 10000, where the 0.0001 added before the cast cannot carry
    the value to the next integer; for an [int] size it is at most 31. *)
Theorem log_fields_near_integer_log2 fuel this image mipmapsNum t' :
  create_mipmapped_texture convertTo cvtColor resize fuel this image mipmapsNum
  = Some (t', Normal) ->
  exists level0,
    nth_error (mipmaps t') 0 = Some level0
    /\ (Z.log2 (cols level0) <= widthLog t' <= Z.log2 (cols level0) + 1
        /\ (cols level0 < 10000 -> widthLog t' = Z.log2 (cols level0))
        /\ (cols level0 <= INT_MAX -> 0 <= widthLog t' <= 31))
    /\ (Z.log2 (rows level0) <= heightLog t' <= Z.log2 (rows level0) + 1
        /\ (rows level0 < 10000 -> heightLog t' = Z.log2 (rows level0))
        /\ (rows level0 <= INT_MAX -> 0 <= heightLog t' <= 31)).
Proof.
  intros Hrun.
  destruct (create_appends _ _ _ _ _ _ Hrun) as (new & Hms & Hcase).
  destruct Hcase as [(_ & e & [=]) | (m1 & m2 & c0 & _ & _ & _ & Hend)].
  destruct Hend as [(_ & Hlogs) | (Hc0 & Hc)];
    [|symmetry in Hc; contradiction].
  destruct (store_logs_inv _ _ _ Hlogs) as (_ & _ & _ & Hm0).
  destruct (Hm0 eq_refl) as (m0 & Hnth & Hwl & Hhl).
  cbn [mipmaps set_mipmaps] in Hnth.
  exists m0. rewrite Hms. split; [exact Hnth|].
  destruct (log2_eps_near _ _ Hwl) as (Hc1 & Hcn & Hce).
  destruct (log2_eps_near _ _ Hhl) as (Hr1 & Hrn & Hre).
  split.
  - split; [exact Hcn | split; [exact Hce|]].
    intros Hmax. apply (log2_eps_range (cols m0)); [lia | exact Hwl].
  - split; [exact Hrn | split; [exact Hre|]].
    intros Hmax. apply (log2_eps_range (rows m0)); [lia | exact Hhl].
Qed.

End TextureProperties.

(* ================================================================== *)
(** * The automatic level count *)

Section AutoLevelCount.

Variable convertTo : Mat -> MatType -> result Mat.
Variable cvtColor : Mat -> ColorConversionCode -> result Mat.
Variable resize : Mat -> Mat -> Size -> result Mat.


End AutoLevelCount.

(* ================================================================== *)
(** * The model of the OpenCV operations keeps the contract *)

Lemma cv_convertTo_size src rtype dst :
  cv_convertTo src rtype = Ok dst -> cols dst = cols src /\ rows dst = rows src.
Proof. unfold cv_convertTo. intros [= <-]. split; reflexivity. Qed.


Lemma cv_cvtColor_size src dst :
  cv_cvtColor src CV_BGR2BGRA = Ok dst ->
  cols dst = cols src /\ rows dst = rows src.
Proof.
  unfold cv_cvtColor. destruct (negb _); [discriminate|].
  intros [= <-]. split; reflexivity.
Qed.



Lemma cv_resize_size src dst dsize r :
  cv_resize src dst dsize = Ok r ->
  cols r = width dsize /\ rows r = height dsize.
Proof.
  unfold cv_resize. destruct (_ || _); [discriminate|].
  intros [= <-]. split; reflexivity.
Qed.

Lemma cv_resize_nonempty src dst dsize r :
  cv_resize src dst dsize = Ok r -> 0 < width dsize /\ 0 < height dsize.
Proof.
  unfold cv_resize.
  destruct (_ || _) eqn:E; [discriminate|]. intros _.
  apply orb_false_iff in E. destruct E as [E Eh].
  apply orb_false_iff in E. destruct E as [_ Ew].
  apply Z.leb_gt in Eh. apply Z.leb_gt in Ew. auto.
Qed.


Lemma cv_resize_total src dst dsize :
  nonempty src -> 0 < width dsize -> 0 < height dsize ->
  exists r, cv_resize src dst dsize = Ok r.
Proof.
  intros [Hc Hr] Hw Hh. unfold cv_resize.
  rewrite (proj2 (Z.leb_gt _ _) Hc), (proj2 (Z.leb_gt _ _) Hr),
          (proj2 (Z.leb_gt _ _) Hw), (proj2 (Z.leb_gt _ _) Hh).
  cbn [orb]. eexists. reflexivity.
Qed.

(** A source of one channel is refused by [cv_cvtColor]: the call throws
    the [cv::Exception] and appends nothing. *)
Example one_channel_source_refused :
  create_mipmapped_texture cv_convertTo cv_cvtColor cv_resize 32 new_texture
                           (solid 4 4 1 7) 0
  = Some (set_mipmaps_num new_texture 3, Thrown (cv_Exception CV_StsAssert)).
Proof. reflexivity. Qed.

(* ================================================================== *)
(** * The window transform in binary32, run *)



(* ================================================================== *)
(** * The theorems on the model of the OpenCV operations *)





Lemma empty_image_passes_validation_witness :
  exists t',
    create_mipmapped_texture cv_convertTo cv_cvtColor cv_resize 32
                             new_texture (mkMat 0 0 CV_8UC3 []) 2
    = Some (t', Thrown (cv_Exception CV_StsAssert))
    /\ mipmaps_num t' = 2
    /\ Thrown (cv_Exception CV_StsAssert)
       <> Thrown (runtime_error not_power_of_two_msg).
Proof.
  assert (Hrun : exists t',
             create_mipmapped_texture cv_convertTo cv_cvtColor cv_resize 32
                                      new_texture (mkMat 0 0 CV_8UC3 []) 2
             = Some (t', Thrown (cv_Exception CV_StsAssert)))
    by (eexists; vm_compute; reflexivity).
  destruct Hrun as [t' Hrun]. exists t'. split; [exact Hrun|].
  destruct (empty_image_passes_validation cv_convertTo cv_cvtColor cv_resize
              32 new_texture CV_8UC3 [] t' _ Hrun) as (Hnum & _ & Hc & _).
  split; [exact Hnum | exact Hc].
Defined.

Lemma levels_halve_witness :
  exists t',
    create_mipmapped_texture cv_convertTo cv_cvtColor cv_resize 32
                             new_texture (solid 16 16 3 7) 5
    = Some (t', Normal)
    /\ map dims (mipmaps t') = [(16, 16); (8, 8); (4, 4); (2, 2); (1, 1)].
Proof.
  assert (Hrun : exists t',
             create_mipmapped_texture cv_convertTo cv_cvtColor cv_resize 32
                                      new_texture (solid 16 16 3 7) 5
             = Some (t', Normal))
    by (eexists; vm_compute; reflexivity).
  destruct Hrun as [t' Hrun]. exists t'. split; [exact Hrun|].
  destruct (levels_halve cv_convertTo cv_cvtColor cv_resize
              cv_convertTo_size cv_cvtColor_size cv_resize_size
              cv_resize_nonempty 32 new_texture (solid 16 16 3 7) 5 t' Normal Hrun)
    as (new & Hnew & _ & H16).
  cbn [mipmaps new_texture app] in Hnew. rewrite Hnew.
  exact (H16 eq_refl eq_refl eq_refl eq_refl).
Defined.

Lemma log2_fields_witness :
  (exists t',
      create_mipmapped_texture cv_convertTo cv_cvtColor cv_resize 32
                               new_texture image_4x2 0 = Some (t', Normal)
      /\ widthLog t' = 2 /\ heightLog t' = 1)
  /\ (exists t',
         create_mipmapped_texture cv_convertTo cv_cvtColor cv_resize 32
                                  new_texture (solid 64 256 3 7) 0
         = Some (t', Normal)
         /\ widthLog t' = 8 /\ heightLog t' = 6).
Proof.
  split.
  - assert (Hrun : exists t',
               create_mipmapped_texture cv_convertTo cv_cvtColor cv_resize 32
                                        new_texture image_4x2 0
               = Some (t', Normal))
      by (eexists; vm_compute; reflexivity).
    destruct Hrun as [t' Hrun]. exists t'. split; [exact Hrun|].
    exact (proj1 (proj2 (log2_fields cv_convertTo cv_cvtColor cv_resize
                           cv_convertTo_size cv_cvtColor_size
                           32 new_texture image_4x2 0 t' Hrun))
                 2 1 eq_refl ltac:(lia) ltac:(lia) eq_refl eq_refl).
  - assert (Hrun : exists t',
               create_mipmapped_texture cv_convertTo cv_cvtColor cv_resize 32
                                        new_texture (solid 64 256 3 7) 0
               = Some (t', Normal)).
    { eapply (create_returns cv_convertTo cv_cvtColor cv_resize
                cv_convertTo_size cv_cvtColor_size cv_resize_size
                cv_resize_total 32 new_texture (solid 64 256 3 7) 0 9).
      - reflexivity.
      - unfold INT_MAX. lia.
      - reflexivity.
      - reflexivity.
      - reflexivity.
      - unfold nonempty. cbn. lia.
      - constructor. }
    destruct Hrun as [t' Hrun]. exists t'. split; [exact Hrun|].
    exact (proj2 (proj2 (log2_fields cv_convertTo cv_cvtColor cv_resize
                           cv_convertTo_size cv_cvtColor_size
                           32 new_texture (solid 64 256 3 7) 0 t' Hrun))
                 eq_refl eq_refl eq_refl).
Defined.

Lemma failure_state_witness :
  exists t',
    create_mipmapped_texture cv_convertTo cv_cvtColor (cv_resize_limited 2) 32
                             new_texture (solid 4 4 3 7) 0
    = Some (t', Thrown (cv_Exception CV_StsNoMem))
    /\ widthLog t' = 0 /\ heightLog t' = 0 /\ mipmaps_num t' = 3
    /\ mipmaps t' <> [].
Proof.
  assert (Hrun : exists t',
             create_mipmapped_texture cv_convertTo cv_cvtColor
                                      (cv_resize_limited 2) 32
                                      new_texture (solid 4 4 3 7) 0
             = Some (t', Thrown (cv_Exception CV_StsNoMem)))
    by (eexists; vm_compute; reflexivity).
  destruct Hrun as [t' Hrun]. exists t'. split; [exact Hrun|].
  destruct (failure_state cv_convertTo cv_cvtColor (cv_resize_limited 2)
              32 new_texture (solid 4 4 3 7) 0 t' _ Hrun)
    as (Hw & Hh & Hnum & partial & Hms & _ & Hnil & _).
  split; [exact Hw | split; [exact Hh | split]].
  - assert (E : resolved_count 32 (solid 4 4 3 7) 0 = Some 3) by reflexivity.
    congruence.
  - rewrite Hms. cbn [mipmaps new_texture app]. intros E.
    apply Hnil in E.
    destruct E as [E | [(code & E) | (m1 & code & E1 & E2)]];
      try discriminate.
    injection E1 as <-. vm_compute in E2. discriminate.
Defined.

(** C8 as the spec states it fails twice.  On a 100 x 50 image the call
    throws out of the validation after it has stored the level count 7 in
    [mipmaps_num]; and when [resize] throws for level 1 of a 4 x 4 image,
    level 0 is already in [mipmaps]: the texture holds a partial pyramid. *)
Lemma failure_state_counterexample :
  (exists t',
      create_mipmapped_texture cv_convertTo cv_cvtColor cv_resize 32
                               new_texture (solid 50 100 3 7) 0
      = Some (t', Thrown (runtime_error not_power_of_two_msg))
      /\ mipmaps_num new_texture = 0 /\ mipmaps_num t' = 7
      /\ t' <> new_texture)
  /\ (exists t',
         create_mipmapped_texture cv_convertTo cv_cvtColor
                                  (cv_resize_limited 2) 32
                                  new_texture (solid 4 4 3 7) 0
         = Some (t', Thrown (cv_Exception CV_StsNoMem))
         /\ mipmaps new_texture = []
         /\ map dims (mipmaps t') = [(4, 4)]
         /\ t' <> new_texture).
Proof.
  split.
  - eexists. split; [vm_compute; reflexivity|].
    split; [reflexivity | split; [reflexivity | discriminate]].
  - eexists. split; [vm_compute; reflexivity|].
    split; [reflexivity | split; [reflexivity | discriminate]].
Qed.

Lemma is_power_of_two_accepts_zero_witness :
  is_power_of_two 0 = true
  /\ is_power_of_two 64 = true
  /\ is_power_of_two 100 = false
  /\ create_mipmapped_texture cv_convertTo cv_cvtColor cv_resize 32
                              new_texture (mkMat 4 0 CV_8UC3 []) 0
     <> Some (set_mipmaps_num new_texture 3,
              Thrown (runtime_error not_power_of_two_msg)).
Proof.
  destruct (is_power_of_two_accepts_zero cv_convertTo cv_cvtColor cv_resize)
    as (H0 & _ & Hpow & Hval).
  split; [exact H0 | split; [exact (Hpow 6 ltac:(lia)) | split]].
  - reflexivity.
  - apply Hval. left. split; reflexivity.
Defined.

(** The two builds of a 100 x 50 image: with the level count left to the
    method the validation throws; with one level requested the call
    returns with that level. *)
Example build_100x50 :
  create_mipmapped_texture cv_convertTo cv_cvtColor cv_resize 32 new_texture
                           (solid 50 100 3 7) 0
  = Some (set_mipmaps_num new_texture 7,
          Thrown (runtime_error not_power_of_two_msg))
  /\ exists t' level0,
       create_mipmapped_texture cv_convertTo cv_cvtColor cv_resize 32
                                new_texture (solid 50 100 3 7) 1
       = Some (t', Normal)
       /\ mipmaps t' = [level0].
Proof.
  split; [reflexivity|].
  apply (proj2 (single_level_skips_validation cv_convertTo cv_cvtColor
                  cv_resize cv_convertTo_size cv_cvtColor_size cv_resize_size
                  cv_resize_total 32 new_texture (solid 50 100 3 7))).
  - cbn. unfold nonempty. cbn. lia.
  - constructor.
  - eexists. eexists. split; reflexivity.
Qed.


(* ================================================================== *)
(** * Further properties of the coordinate mapper *)

Lemma half_to_float_pos (z : Z) : 0 < z -> (0 < to_float z / 2)%Q.
Proof.
  intros Hz. unfold to_float.
  assert (H : (0 < inject_Z z)%Q) by (unfold Qlt; simpl; lia).
  apply Qlt_shift_div_l; [reflexivity | Lqa.lra].
Qed.

(** X2.  The clip rectangle [-1,1] x [-1,1] is exactly what
    [clip_to_screen_space] maps into the screen rectangle [0,w] x [0,h]:
    a point is inside the one if and only if its image is inside the
    other. *)
Theorem clip_rectangle_is_screen_rectangle (x y : Q) (w h : Z) :
  0 < w -> 0 < h ->
  ((-1 <= x)%Q /\ (x <= 1)%Q /\ (-1 <= y)%Q /\ (y <= 1)%Q)
  <->
  ((0 <= v0 (clip_to_screen_space (mkVec2f x y) w h))%Q
   /\ (v0 (clip_to_screen_space (mkVec2f x y) w h) <= inject_Z w)%Q
   /\ (0 <= v1 (clip_to_screen_space (mkVec2f x y) w h))%Q
   /\ (v1 (clip_to_screen_space (mkVec2f x y) w h) <= inject_Z h)%Q).
Proof.
  intros Hw Hh.
  pose proof (half_to_float_pos w Hw) as Ha.
  pose proof (half_to_float_pos h Hh) as Hb.
  unfold clip_to_screen_space; cbn [v0 v1].
  unfold to_float in *.
  assert (Ew : (inject_Z w == 2 * (inject_Z w / 2))%Q) by field.
  assert (Eh : (inject_Z h == 2 * (inject_Z h / 2))%Q) by field.
  revert Ha Ew. generalize (inject_Z w / 2)%Q. intros a Ha Ew.
  revert Hb Eh. generalize (inject_Z h / 2)%Q. intros b Hb Eh.
  assert (Hx0 : (0 * a <= (x + 1) * a)%Q <-> (0 <= x + 1)%Q)
    by (apply Qmult_le_r; exact Ha).
  assert (Hx1 : ((x + 1) * a <= 2 * a)%Q <-> (x + 1 <= 2)%Q)
    by (apply Qmult_le_r; exact Ha).
  assert (Hy0 : (0 * b <= (y + 1) * b)%Q <-> (0 <= y + 1)%Q)
    by (apply Qmult_le_r; exact Hb).
  assert (Hy1 : ((y + 1) * b <= 2 * b)%Q <-> (y + 1 <= 2)%Q)
    by (apply Qmult_le_r; exact Hb).
  assert (Za : (0 * a == 0)%Q) by ring.
  assert (Zb : (0 * b == 0)%Q) by ring.
  revert Hx0 Hx1 Hy0 Hy1 Za Zb.
  generalize ((x + 1) * a)%Q, ((y + 1) * b)%Q, (0 * a)%Q, (0 * b)%Q.
  generalize (inject_Z w), (inject_Z h) , Ew, Eh.
  clear. intros W H Ew Eh p q za zb Hx0 Hx1 Hy0 Hy1 Za Zb.
  split.
  - intros (H1 & H2 & H3 & H4).
    assert (za <= p)%Q by (apply Hx0; Lqa.lra).
    assert (p <= 2 * a)%Q by (apply Hx1; Lqa.lra).
    assert (zb <= q)%Q by (apply Hy0; Lqa.lra).
    assert (q <= 2 * b)%Q by (apply Hy1; Lqa.lra).
    repeat split; Lqa.lra.
  - intros (H1 & H2 & H3 & H4).
    assert (0 <= x + 1)%Q by (apply Hx0; Lqa.lra).
    assert (x + 1 <= 2)%Q by (apply Hx1; Lqa.lra).
    assert (0 <= y + 1)%Q by (apply Hy0; Lqa.lra).
    assert (y + 1 <= 2)%Q by (apply Hy1; Lqa.lra).
    repeat split; Lqa.lra.
Qed.

Lemma clip_rectangle_is_screen_rectangle_witness :
  0 < 640 /\ 0 < 480
  /\ (0 <= v0 (clip_to_screen_space (mkVec2f (3 # 10) (-7 # 9)) 640 480))%Q
  /\ (v1 (clip_to_screen_space (mkVec2f (3 # 10) (-7 # 9)) 640 480)
      <= inject_Z 480)%Q.
Proof.
  assert (Hw : 0 < 640) by lia.
  assert (Hh : 0 < 480) by lia.
  split; [exact Hw | split; [exact Hh|]].
  destruct (proj1 (clip_rectangle_is_screen_rectangle
                     (3 # 10) (-7 # 9) 640 480 Hw Hh))
    as (H1 & _ & _ & H4).
  - repeat split; discriminate.
  - split; [exact H1 | exact H4].
Defined.

(** X3.  The orientation of the window transform, for a positive width and
    height: a larger clip x gives a larger screen x, and a larger clip y
    gives a smaller screen y (the y axis is flipped). *)
Theorem clip_to_screen_space_orientation (x1 y1 x2 y2 : Q) (w h : Z) :
  0 < w -> 0 < h ->
  ((x1 < x2)%Q <->
   (v0 (clip_to_screen_space (mkVec2f x1 y1) w h)
    < v0 (clip_to_screen_space (mkVec2f x2 y2) w h))%Q)
  /\ ((y1 < y2)%Q <->
      (v1 (clip_to_screen_space (mkVec2f x2 y2) w h)
       < v1 (clip_to_screen_space (mkVec2f x1 y1) w h))%Q).
Proof.
  intros Hw Hh.
  pose proof (half_to_float_pos w Hw) as Ha.
  pose proof (half_to_float_pos h Hh) as Hb.
  unfold clip_to_screen_space; cbn [v0 v1].
  revert Ha. generalize (to_float w / 2)%Q. intros a Ha.
  revert Hb. generalize (to_float h / 2)%Q. intros b Hb.
  assert (Hx : ((x1 + 1) * a < (x2 + 1) * a)%Q <-> (x1 + 1 < x2 + 1)%Q)
    by (apply Qmult_lt_r; exact Ha).
  assert (Hy : ((y1 + 1) * b < (y2 + 1) * b)%Q <-> (y1 + 1 < y2 + 1)%Q)
    by (apply Qmult_lt_r; exact Hb).
  revert Hx Hy.
  generalize ((x1 + 1) * a)%Q, ((x2 + 1) * a)%Q,
             ((y1 + 1) * b)%Q, ((y2 + 1) * b)%Q, (to_float h).
  intros p1 p2 q1 q2 H Hx Hy.
  split; split; intros Hlt.
  - apply Hx. Lqa.lra.
  - assert (x1 + 1 < x2 + 1)%Q by (apply Hx; exact Hlt). Lqa.lra.
  - assert (q1 < q2)%Q by (apply Hy; Lqa.lra). Lqa.lra.
  - assert (y1 + 1 < y2 + 1)%Q by (apply Hy; Lqa.lra). Lqa.lra.
Qed.

Lemma clip_to_screen_space_orientation_witness :
  0 < 640 /\ 0 < 480
  /\ (v1 (clip_to_screen_space (mkVec2f 0 (1 # 2)) 640 480)
      < v1 (clip_to_screen_space (mkVec2f 0 (-1 # 2)) 640 480))%Q.
Proof.
  assert (Hw : 0 < 640) by lia.
  assert (Hh : 0 < 480) by lia.
  split; [exact Hw | split; [exact Hh|]].
  apply (proj1 (proj2 (clip_to_screen_space_orientation
                         0 (-1 # 2) 0 (1 # 2) 640 480 Hw Hh))).
  reflexivity.
Defined.

Lemma clip_to_screen_space_inverts_witness :
  0 < 640 /\ 0 < 480 /\
  clip_to_screen_space
    (screen_to_clip_space (mkVec2f (100 # 1) (37 # 2)) 640 480) 640 480
  =v= mkVec2f (100 # 1) (37 # 2).
Proof.
  split; [lia | split; [lia | ]].
  apply (clip_to_screen_space_inverts (mkVec2f (100 # 1) (37 # 2)) 640 480);
    lia.
Defined.


(* ================================================================== *)
(** * Further properties of the integer helpers *)

(** X4.  On an [int] above [INT_MIN] the test of [is_power_of_two] is
    exact but for 0: on a positive value it holds if and only if the value
    is [2^k], with [k] from 0 to 30; it does not hold on a negative value;
    so 0 is the one value it accepts that is no power of two.  At [INT_MIN]
    the subtraction [x - 1] overflows. *)
Theorem is_power_of_two_exact :
  (forall x, 0 < x <= INT_MAX ->
     (is_power_of_two x = true <-> exists k, 0 <= k <= 30 /\ x = 2 ^ k))
  /\ (forall x, INT_MIN < x < 0 -> is_power_of_two x = false)
  /\ (forall x, INT_MIN < x <= INT_MAX ->
        is_power_of_two x = true -> x = 0 \/ x = 2 ^ Z.log2 x).
Proof.
  split; [|split].
  - intros x Hx. split.
    + intros Hp. exists (Z.log2 x).
      pose proof (Z.log2_nonneg x) as H0.
      assert (Hlt : Z.log2 x < 31).
      { apply Z.log2_lt_pow2; [lia|]. unfold INT_MAX in Hx. lia. }
      split; [lia|].
      apply is_power_of_two_positive; [lia | exact Hp].
    + intros (k & Hk & ->). apply is_power_of_two_pow2. lia.
  - intros x Hx. apply is_power_of_two_negative. lia.
  - intros x Hx Hp.
    destruct (Z_lt_le_dec x 0) as [Hneg | Hnn].
    + rewrite is_power_of_two_negative in Hp by exact Hneg. discriminate.
    + destruct (Z.eq_dec x 0) as [E | E]; [left; exact E | right].
      apply is_power_of_two_positive; [lia | exact Hp].
Qed.

(** X5.  Whatever the fuel, a result [n] of [get_max_possible_mipmaps_num] on
    [unsigned int] arguments is the number of bits of the larger one:
    [2^(n-1) <= max width height < 2^n], with [1 <= n <= 32]; and the
    order of the two arguments does not matter. *)
Theorem get_max_possible_mipmaps_num_bits (fuel : nat) (width height n : Z) :
  0 <= width < UINT_MOD -> 0 <= height < UINT_MOD ->
  get_max_possible_mipmaps_num fuel width height = Some n ->
  1 <= n <= 32
  /\ 2 ^ (n - 1) <= Z.max width height < 2 ^ n
  /\ get_max_possible_mipmaps_num fuel height width = Some n.
Proof.
  intros Hw Hh Hrun.
  assert (Hmax : 1 <= Z.max width height < UINT_MOD).
  { split; [|lia].
    destruct (Z.eq_dec (Z.max width height) 0) as [E|E]; [|lia].
    exfalso. unfold get_max_possible_mipmaps_num in Hrun. rewrite E in Hrun.
    cbn [Z.eqb] in Hrun. rewrite mipmaps_num_loop_zero in Hrun.
    discriminate. }
  pose proof (get_max_possible_mipmaps_num_result _ _ _ _ Hrun Hmax) as En.
  assert (Hpos : 0 < Z.max width height) by lia.
  destruct (Z.log2_spec _ Hpos) as [Hlo Hhi].
  pose proof (Z.log2_nonneg (Z.max width height)) as Hnn.
  assert (Hlt : Z.log2 (Z.max width height) < 32).
  { apply Z.log2_lt_pow2; [lia | exact (proj2 Hmax)]. }
  split; [lia | split].
  - subst n. replace (Z.log2 (Z.max width height) + 1 - 1)
      with (Z.log2 (Z.max width height)) by lia.
    replace (Z.log2 (Z.max width height) + 1)
      with (Z.succ (Z.log2 (Z.max width height))) by lia.
    split; assumption.
  - unfold get_max_possible_mipmaps_num in *.
    rewrite (Z.max_comm height width). exact Hrun.
Qed.

Lemma get_max_possible_mipmaps_num_bits_witness :
  (0 <= 100 < UINT_MOD) /\ (0 <= 50 < UINT_MOD)
  /\ get_max_possible_mipmaps_num 10 100 50 = Some 7
  /\ 2 ^ (7 - 1) <= Z.max 100 50 < 2 ^ 7
  /\ get_max_possible_mipmaps_num 10 50 100 = Some 7.
Proof.
  assert (H100 : 0 <= 100 < UINT_MOD) by (unfold UINT_MOD; lia).
  assert (H50 : 0 <= 50 < UINT_MOD) by (unfold UINT_MOD; lia).
  split; [exact H100 | split; [exact H50 | split; [reflexivity|]]].
  exact (proj2 (get_max_possible_mipmaps_num_bits 10 100 50 7
                  H100 H50 eq_refl)).
Defined.


(* ================================================================== *)
(** * Further properties of create_mipmapped_texture, run on the model *)

Lemma level_count_matches_witness :
  exists t',
    create_mipmapped_texture cv_convertTo cv_cvtColor cv_resize 32
                             new_texture image_4x2 0
    = Some (t', Normal)
    /\ 1 <= mipmaps_num t'
    /\ Z.of_nat (length (mipmaps t')) = mipmaps_num t'.
Proof.
  assert (Hrun : exists t',
             create_mipmapped_texture cv_convertTo cv_cvtColor cv_resize 32
                                      new_texture image_4x2 0
             = Some (t', Normal))
    by (eexists; vm_compute; reflexivity).
  destruct Hrun as [t' Hrun]. exists t'. split; [exact Hrun|].
  destruct (level_count_matches cv_convertTo cv_cvtColor cv_resize
              32 new_texture image_4x2 0 t' (Z.le_refl 0) Hrun)
    as (Hpos & new & _ & _ & Hfresh).
  split; [exact Hpos | exact (Hfresh eq_refl)].
Defined.

Lemma level_sizes_closed_form_witness :
  exists t',
    create_mipmapped_texture cv_convertTo cv_cvtColor cv_resize 32
                             new_texture (solid 4 8 3 7) 0
    = Some (t', Normal)
    /\ forall j level,
         nth_error (mipmaps t') j = Some level ->
         cols level = Z.max 1 (8 / 2 ^ Z.of_nat j)
         /\ rows level = Z.max 1 (4 / 2 ^ Z.of_nat j).
Proof.
  assert (Hrun : exists t' level0,
             create_mipmapped_texture cv_convertTo cv_cvtColor cv_resize 32
                                      new_texture (solid 4 8 3 7) 0
             = Some (t', Normal)
             /\ nth_error (mipmaps t') 0 = Some level0
             /\ cols level0 = 8 /\ rows level0 = 4).
  { eexists. eexists. split; [vm_compute; reflexivity|].
    split; [reflexivity | split; reflexivity]. }
  destruct Hrun as (t' & level0 & Hrun & H0 & Hc & Hr).
  exists t'. split; [exact Hrun|].
  destruct (level_sizes_closed_form cv_convertTo cv_cvtColor cv_resize
              cv_resize_size 32 new_texture (solid 4 8 3 7) 0 t' Normal Hrun)
    as (new & Hnew & Hsizes).
  cbn [mipmaps new_texture app] in Hnew. rewrite <- Hnew in Hsizes.
  intros j level Hj.
  rewrite <- Hc at 1. rewrite <- Hr.
  apply (Hsizes level0 j level H0); [rewrite Hc | rewrite Hr | exact Hj]; lia.
Defined.

Lemma levels_stay_nonempty_witness :
  exists t',
    create_mipmapped_texture cv_convertTo cv_cvtColor cv_resize 32
                             new_texture image_4x2 0
    = Some (t', Normal)
    /\ Forall nonempty (mipmaps t').
Proof.
  assert (Hrun : exists t',
             create_mipmapped_texture cv_convertTo cv_cvtColor cv_resize 32
                                      new_texture image_4x2 0
             = Some (t', Normal))
    by (eexists; vm_compute; reflexivity).
  destruct Hrun as [t' Hrun]. exists t'. split; [exact Hrun|].
  apply (levels_stay_nonempty cv_convertTo cv_cvtColor cv_resize
           cv_convertTo_size cv_cvtColor_size cv_resize_size
           32 new_texture image_4x2 0 t' Normal).
  - split; reflexivity.
  - constructor.
  - exact Hrun.
Defined.

Lemma no_undefined_behaviour_witness :
  exists t' c,
    create_mipmapped_texture cv_convertTo cv_cvtColor (cv_resize_limited 2) 32
                             new_texture (solid 4 4 3 7) 0
    = Some (t', c)
    /\ c <> Undefined.
Proof.
  assert (Hrun : exists t' c,
             create_mipmapped_texture cv_convertTo cv_cvtColor
                                      (cv_resize_limited 2) 32
                                      new_texture (solid 4 4 3 7) 0
             = Some (t', c)
             /\ mipmaps_num t' = 3).
  { eexists. eexists. split; [vm_compute; reflexivity | reflexivity]. }
  destruct Hrun as (t' & c & Hrun & Hnum).
  exists t', c. split; [exact Hrun|].
  apply (no_undefined_behaviour cv_convertTo cv_cvtColor (cv_resize_limited 2)
           cv_convertTo_size cv_cvtColor_size
           32 new_texture (solid 4 4 3 7) 0 t' c).
  - split; reflexivity.
  - constructor.
  - exact Hrun.
  - rewrite Hnum. unfold INT_MAX. lia.
Defined.

Lemma levels_resized_from_previous_witness :
  exists t',
    create_mipmapped_texture cv_convertTo cv_cvtColor cv_resize 32
                             new_texture image_4x2 0
    = Some (t', Normal)
    /\ forall j level,
         nth_error (mipmaps t') (S j) = Some level ->
         exists src,
           nth_error (mipmaps t') j = Some src
           /\ cv_resize src (Mat_new (rows level) (cols level) CV_8UC4)
                        (mkSize (cols level) (rows level)) = Ok level.
Proof.
  assert (Hrun : exists t',
             create_mipmapped_texture cv_convertTo cv_cvtColor cv_resize 32
                                      new_texture image_4x2 0
             = Some (t', Normal))
    by (eexists; vm_compute; reflexivity).
  destruct Hrun as [t' Hrun]. exists t'. split; [exact Hrun|].
  destruct (levels_resized_from_previous cv_convertTo cv_cvtColor cv_resize
              cv_resize_size 32 new_texture image_4x2 0 t' Normal Hrun)
    as (new & Hnew & Hsrc).
  cbn [mipmaps new_texture app] in Hnew. rewrite <- Hnew in Hsrc.
  intros j level Hj.
  destruct (Hsrc j level Hj) as (src & H1 & H2 & _).
  exists src. split; [exact H1 | exact H2].
Defined.

Lemma second_call_reads_old_levels_witness :
  exists t',
    create_mipmapped_texture cv_convertTo cv_cvtColor cv_resize 32
                             (mkTexture [solid 2 2 4 9] 1 1 1) image_4x2 0
    = Some (t', Normal)
    /\ cols image_4x2 = 4
    /\ widthLog t' = 1
    /\ nth_error (mipmaps t') 0 = Some (solid 2 2 4 9).
Proof.
  assert (Hrun : exists t',
             create_mipmapped_texture cv_convertTo cv_cvtColor cv_resize 32
                                      (mkTexture [solid 2 2 4 9] 1 1 1)
                                      image_4x2 0
             = Some (t', Normal))
    by (eexists; vm_compute; reflexivity).
  destruct Hrun as [t' Hrun]. exists t'. split; [exact Hrun|].
  split; [reflexivity|].
  destruct (second_call_reads_old_levels cv_convertTo cv_cvtColor cv_resize
              32 (mkTexture [solid 2 2 4 9] 1 1 1) image_4x2 0 t'
              (solid 2 2 4 9) [] eq_refl Hrun)
    as (H0 & Hwl & _ & _).
  split; [|exact H0].
  change (cols (solid 2 2 4 9)) with (2 ^ 1) in Hwl.
  pose proof (log2_eps_pow2 1 ltac:(lia)) as Hone.
  congruence.
Defined.

Lemma runtime_error_exactly_when_witness :
  exists t',
    create_mipmapped_texture cv_convertTo cv_cvtColor cv_resize 32
                             new_texture (solid 50 100 3 7) 0
    = Some (t', Thrown (runtime_error not_power_of_two_msg))
    /\ 1 < mipmaps_num t'
    /\ t' = set_mipmaps_num new_texture (mipmaps_num t').
Proof.
  assert (Hrun : exists t',
             create_mipmapped_texture cv_convertTo cv_cvtColor cv_resize 32
                                      new_texture (solid 50 100 3 7) 0
             = Some (t', Thrown (runtime_error not_power_of_two_msg)))
    by (eexists; vm_compute; reflexivity).
  destruct Hrun as [t' Hrun]. exists t'. split; [exact Hrun|].
  destruct (runtime_error_exactly_when cv_convertTo cv_cvtColor cv_resize
              32 new_texture (solid 50 100 3 7) 0 t' _ Hrun)
    as (Hiff & Hstate & _).
  split.
  - apply (proj1 Hiff). exists not_power_of_two_msg. reflexivity.
  - exact (proj2 (Hstate _ eq_refl)).
Defined.

Lemma single_level_build_witness :
  exists t',
    create_mipmapped_texture cv_convertTo cv_cvtColor cv_resize 32
                             new_texture (solid 50 100 3 7) 1
    = Some (t', Normal)
    /\ mipmaps_num t' = 1
    /\ exists level0, mipmaps t' = [level0].
Proof.
  assert (Hrun : exists t',
             create_mipmapped_texture cv_convertTo cv_cvtColor cv_resize 32
                                      new_texture (solid 50 100 3 7) 1
             = Some (t', Normal)).
  { eapply (create_returns cv_convertTo cv_cvtColor cv_resize
              cv_convertTo_size cv_cvtColor_size cv_resize_size
              cv_resize_total 32 new_texture (solid 50 100 3 7) 1 1).
    - reflexivity.
    - unfold INT_MAX. lia.
    - reflexivity.
    - reflexivity.
    - reflexivity.
    - unfold nonempty. cbn. lia.
    - constructor. }
  destruct Hrun as [t' Hrun]. exists t'. split; [exact Hrun|].
  destruct (single_level_build cv_convertTo cv_cvtColor cv_resize
              32 new_texture (solid 50 100 3 7) t' Normal Hrun)
    as (Hnum & _ & _ & Hlevel & _).
  split; [exact Hnum|].
  destruct (Hlevel eq_refl) as (m1 & level0 & _ & _ & Hms).
  exists level0. exact Hms.
Defined.


Lemma auto_pyramid_ends_at_1x1_witness :
  exists t',
    create_mipmapped_texture cv_convertTo cv_cvtColor cv_resize 32
                             new_texture image_4x2 0
    = Some (t', Normal)
    /\ exists last,
         nth_error (mipmaps t') (Nat.pred (length (mipmaps t'))) = Some last
         /\ cols last = 1 /\ rows last = 1.
Proof.
  assert (Hrun : exists t',
             create_mipmapped_texture cv_convertTo cv_cvtColor cv_resize 32
                                      new_texture image_4x2 0
             = Some (t', Normal))
    by (eexists; vm_compute; reflexivity).
  destruct Hrun as [t' Hrun]. exists t'. split; [exact Hrun|].
  assert (Hc : cols image_4x2 <= INT_MAX) by (vm_compute; discriminate).
  assert (Hr : rows image_4x2 <= INT_MAX) by (vm_compute; discriminate).
  exact (proj1 (auto_pyramid_ends_at_1x1 cv_convertTo cv_cvtColor cv_resize
                  cv_convertTo_size cv_cvtColor_size cv_resize_size
                  32 new_texture image_4x2 t' eq_refl Hc Hr Hrun)).
Defined.

Lemma log_fields_give_size_and_count_witness :
  exists t',
    create_mipmapped_texture cv_convertTo cv_cvtColor cv_resize 32
                             new_texture image_4x2 0
    = Some (t', Normal)
    /\ cols image_4x2 = 2 ^ widthLog t'
    /\ rows image_4x2 = 2 ^ heightLog t'
    /\ mipmaps_num t' = Z.max (widthLog t') (heightLog t') + 1.
Proof.
  assert (Hrun : exists t',
             create_mipmapped_texture cv_convertTo cv_cvtColor cv_resize 32
                                      new_texture image_4x2 0
             = Some (t', Normal))
    by (eexists; vm_compute; reflexivity).
  destruct Hrun as [t' Hrun]. exists t'. split; [exact Hrun|].
  assert (Hc : cols image_4x2 <= INT_MAX) by (vm_compute; discriminate).
  assert (Hr : rows image_4x2 <= INT_MAX) by (vm_compute; discriminate).
  destruct (log_fields_give_size_and_count cv_convertTo cv_cvtColor cv_resize
              cv_convertTo_size cv_cvtColor_size cv_resize_size
              32 new_texture image_4x2 0 t' eq_refl Hc Hr Hrun)
    as (Hsize & Hcount).
  destruct (Hsize (or_intror eq_refl)) as [Hw Hh].
  split; [exact Hw | split; [exact Hh | exact (Hcount eq_refl)]].
Defined.

Lemma log_fields_near_integer_log2_witness :
  exists t',
    create_mipmapped_texture cv_convertTo cv_cvtColor cv_resize 32
                             new_texture image_4x2 0
    = Some (t', Normal)
    /\ widthLog t' = 2 /\ heightLog t' = 1.
Proof.
  assert (Hrun : exists t' level0,
             create_mipmapped_texture cv_convertTo cv_cvtColor cv_resize 32
                                      new_texture image_4x2 0
             = Some (t', Normal)
             /\ nth_error (mipmaps t') 0 = Some level0
             /\ cols level0 = 4 /\ rows level0 = 2).
  { eexists. eexists. split; [vm_compute; reflexivity|].
    split; [reflexivity | split; reflexivity]. }
  destruct Hrun as (t' & level0 & Hrun & H0 & Hc & Hr).
  exists t'. split; [exact Hrun|].
  destruct (log_fields_near_integer_log2 cv_convertTo cv_cvtColor cv_resize
              32 new_texture image_4x2 0 t' Hrun)
    as (m0 & Hm0 & (_ & Hw & _) & (_ & Hh & _)).
  assert (m0 = level0) as -> by congruence.
  rewrite Hc in Hw. rewrite Hr in Hh.
  split; [exact (Hw eq_refl) | exact (Hh eq_refl)].
Defined.
